(** * Media downloader backend: classification and normalisation logic

    A shallow embedding of [downloader.py] (class [SocialDownloader]) and the
    properties its specification states about it.

    Conventions of the embedding.
    - Python [str] values are [string]s over 8-bit characters; [str.lower]
      acts on the ASCII letters.
    - A dictionary key read with [d.get(k)] is an [option] field: [None]
      stands for a key that is absent or bound to Python's [None].
    - Python [int]s are [Z]; a [float] is the rational it denotes, in [Q].
    - Dictionaries built by the code ([qualities], [quality_map], [labels],
      the yt-dlp options) are [gmap]s keyed by [string].
    - The extraction service (yt-dlp) and the file system are explicit
      parameters of [download]. *)

From Stdlib Require Import ZArith QArith Qabs String Ascii List Lia Lqa.
From stdpp Require Import gmap strings list fin_maps pretty.

Open Scope string_scope.
Open Scope Z_scope.

(** ** Python string primitives *)

(** [str.lower] on one character: [A]..[Z] move to [a]..[z]. *)
Definition ascii_lower (c : ascii) : ascii :=
  let n := N_of_ascii c in
  if ((65 <=? n) && (n <=? 90))%N then ascii_of_N (n + 32) else c.

Fixpoint lower (s : string) : string :=
  match s with
  | EmptyString => EmptyString
  | String c s' => String (ascii_lower c) (lower s')
  end.

(** [pat in s] for strings: [pat] occurs in [s] as a contiguous substring. *)
Fixpoint str_in (pat s : string) : bool :=
  String.prefix pat s ||
  match s with
  | EmptyString => false
  | String _ s' => str_in pat s'
  end.

(** [s.rfind(c)] for a one-character [c]: the highest index holding [c],
    or [-1]. *)
Fixpoint rfind (c : ascii) (s : string) : Z :=
  match s with
  | EmptyString => -1
  | String a s' =>
      let r := rfind c s' in
      if 0 <=? r then r + 1 else if Ascii.eqb a c then 0 else -1
  end.

(** The slices [s[:n]] and [s[n:]] for [n >= 0]. *)
Fixpoint str_take (n : nat) (s : string) : string :=
  match n, s with
  | S n', String a s' => String a (str_take n' s')
  | _, _ => EmptyString
  end.

Fixpoint str_drop (n : nat) (s : string) : string :=
  match n, s with
  | S n', String _ s' => str_drop n' s'
  | _, _ => s
  end.

Fixpoint has_non_dot (s : string) : bool :=
  match s with
  | EmptyString => false
  | String a s' => negb (Ascii.eqb a ".") || has_non_dot s'
  end.

(** [os.path.splitext] (posixpath, through [genericpath._splitext] with
    [sep = '/'], no [altsep], [extsep = '.']): the extension starts at the
    last dot of the last path component, leading dots of that component
    not counting. *)
Definition splitext (p : string) : string * string :=
  let sepIndex := rfind "/" p in
  let dotIndex := rfind "." p in
  if (sepIndex <? dotIndex)
     && has_non_dot (str_take (Z.to_nat (dotIndex - (sepIndex + 1)))
                              (str_drop (Z.to_nat (sepIndex + 1)) p))
  then (str_take (Z.to_nat dotIndex) p, str_drop (Z.to_nat dotIndex) p)
  else (p, EmptyString).

(** [os.path.basename] (posixpath): what follows the last slash. *)
Definition basename (p : string) : string :=
  str_drop (Z.to_nat (rfind "/" p + 1)) p.

(** [os.path.join(a, b)] (posixpath) for two components. *)
Definition path_join (a b : string) : string :=
  if String.prefix "/" b then b
  else if (a =? "")%string || (rfind "/" a =? Z.of_nat (String.length a) - 1)
       then a +:+ b
       else a +:+ "/" +:+ b.

(** ** The extraction service's data *)

(** One entry of [info['formats']]. *)
Record FormatVariant := mkFormat {
  fv_height : option Z;
  fv_vcodec : option string;
  fv_acodec : option string;
  fv_ext : option string;
  fv_filesize : option Z;
  fv_filesize_approx : option Z
}.

(** The [info] dictionary returned by [extract_info], with the fields
    the code reads. [md_formats] is [info.get('formats', [])]; [md_url]
    is a string when the key is present. *)
Record MediaDescriptor := mkInfo {
  md_type : option string;
  md_webpage_url : option string;
  md_url : option string;
  md_duration : option Q;
  md_formats : list FormatVariant;
  md_title : option string;
  md_extractor_key : option string
}.

(** ** Python values *)

(** [x != s] for [x = d.get(k)]: [None] differs from every string. *)
Definition py_ne_str (x : option string) (s : string) : bool :=
  match x with
  | Some c => negb (c =? s)%string
  | None => true
  end.

Definition is_not_None {A} (x : option A) : bool :=
  match x with Some _ => true | None => false end.

(** [a or b] on optional integers: [a] when it is truthy (neither [None]
    nor [0]), else [b]. *)
Definition py_or (a b : option Z) : option Z :=
  match a with
  | Some x => if x =? 0 then b else a
  | None => b
  end.

(** ** Content-type detector *)

Definition photo_url_patterns : list string :=
  ["/photo/"; "/image/"; ".jpg"; ".png"; ".jpeg"; ".webp"].

(** [info.get('webpage_url', '') or info.get('url', '')]. *)
Definition content_url (info : MediaDescriptor) : string :=
  let w := default "" (md_webpage_url info) in
  if (w =? "")%string then default "" (md_url info) else w.

Definition has_codec (codec : FormatVariant → option string)
    (formats : list FormatVariant) : bool :=
  existsb (λ f, py_ne_str (codec f) "none" && is_not_None (codec f)) formats.

Definition _detect_content_type (info : MediaDescriptor) : string :=
  if bool_decide (md_type info = Some "image") then "photo"
  else
    let url := content_url info in
    if existsb (λ x, str_in x (lower url)) photo_url_patterns then "photo"
    else
      let duration := md_duration info in
      let formats := md_formats info in
      let has_video := has_codec fv_vcodec formats in
      let has_audio := has_codec fv_acodec formats in
      if negb has_video && negb has_audio then "photo"
      else if negb has_video && has_audio then "audio"
      else if match duration with
              | None => true
              | Some d => Qeq_bool d 0
              end && negb has_audio
           then "photo"
           else "video".

(** The specification's [ContentType] and the string the code returns
    for each of its values. *)
Inductive ContentType := video | audio | photo.

Definition ContentType_str (c : ContentType) : string :=
  match c with
  | video => "video"
  | audio => "audio"
  | photo => "photo"
  end.

(** [pat] occurs in [s] up to the case of ASCII letters. *)
Definition contains_ci (s pat : string) : Prop :=
  ∃ pre mid post, s = pre +:+ mid +:+ post ∧ lower mid = lower pat.

(** The conditions of the specification's decision list. *)
Definition declared_image (info : MediaDescriptor) : Prop :=
  md_type info = Some "image".

Definition url_is_photo (info : MediaDescriptor) : Prop :=
  ∃ pat, pat ∈ photo_url_patterns ∧ contains_ci (content_url info) pat.

Definition codec_present (codec : FormatVariant → option string)
    (info : MediaDescriptor) : Prop :=
  ∃ f c, f ∈ md_formats info ∧ codec f = Some c ∧ c ≠ "none".

Definition duration_null_or_zero (info : MediaDescriptor) : Prop :=
  md_duration info = None ∨ ∃ d, md_duration info = Some d ∧ (d == 0)%Q.

(** A decision list read with "first match wins": the result of the first
    rule whose condition holds, or [otherwise] when none does. *)
Fixpoint first_match (rules : list (Prop * ContentType))
    (otherwise c : ContentType) : Prop :=
  match rules with
  | [] => c = otherwise
  | (P, r) :: rest => (P ∧ c = r) ∨ (¬ P ∧ first_match rest otherwise c)
  end.

(** Steps 1, 2, 4, 5 and 6 of the specification's decision order; step 7 is
    the fall-through. *)
Definition classify_rules (info : MediaDescriptor)
    : list (Prop * ContentType) :=
  let has_video := codec_present fv_vcodec info in
  let has_audio := codec_present fv_acodec info in
  [ (declared_image info, photo);
    (url_is_photo info, photo);
    (¬ has_video ∧ ¬ has_audio, photo);
    (has_audio ∧ ¬ has_video, audio);
    (duration_null_or_zero info ∧ ¬ has_audio, photo) ].

(** ** Quality classifier *)

Definition _height_to_quality (height : Z) : option string :=
  if height >=? 4320 then Some "8k"
  else if height >=? 2160 then Some "4k"
  else if height >=? 1440 then Some "2k"
  else if height >=? 1080 then Some "1080p"
  else if height >=? 720 then Some "720p"
  else if height >=? 480 then Some "480p"
  else if height >=? 360 then Some "360p"
  else if height >=? 240 then Some "240p"
  else if height >=? 144 then Some "144p"
  else None.

(** The threshold table as the specification gives it. *)
Definition bucket_table : list (Z * string) :=
  [ (4320, "8k"); (2160, "4k"); (1440, "2k"); (1080, "1080p"); (720, "720p");
    (480, "480p"); (360, "360p"); (240, "240p"); (144, "144p") ].

(** [b] is the bucket of the highest threshold not above [h]. *)
Definition highest_threshold_bucket (h : Z) (b : string) : Prop :=
  ∃ t, (t, b) ∈ bucket_table ∧ t ≤ h ∧
       ∀ t' b', (t', b') ∈ bucket_table → t' ≤ h → t' ≤ t.

(** The quality order [none < 144p < 240p < ... < 4k < 8k], as a rank. *)
Definition quality_rank (q : option string) : Z :=
  match q with
  | None => 0
  | Some b =>
      if (b =? "144p")%string then 1
      else if (b =? "240p")%string then 2
      else if (b =? "360p")%string then 3
      else if (b =? "480p")%string then 4
      else if (b =? "720p")%string then 5
      else if (b =? "1080p")%string then 6
      else if (b =? "2k")%string then 7
      else if (b =? "4k")%string then 8
      else if (b =? "8k")%string then 9
      else 0
  end.

(** The static label table of [_get_quality_label]. *)
Definition label_table : list (string * string) :=
  [ ("8k", "8K Ultra HD (4320p)"); ("4k", "4K Ultra HD (2160p)");
    ("2k", "2K QHD (1440p)"); ("1080p", "Full HD (1080p)");
    ("720p", "HD (720p)"); ("480p", "SD (480p)"); ("360p", "360p");
    ("240p", "240p"); ("144p", "144p") ].

Definition _get_quality_label (quality : string) : string :=
  let labels : gmap string string := list_to_map label_table in
  default quality (labels !! quality).

(** A value of the [qualities] dictionary. *)
Record QualityInfo := mkQualityInfo {
  qi_height : Z;
  qi_filesize : option Z;
  qi_ext : option string;
  qi_available : bool
}.

(** An entry of the returned list. *)
Record QualityEntry := mkQualityEntry {
  qe_value : string;
  qe_label : string;
  qe_available : bool;
  qe_filesize : option Z
}.

(** The body of the loop over [info.get('formats', [])]. *)
Definition qualities_step (qualities : gmap string QualityInfo)
    (f : FormatVariant) : gmap string QualityInfo :=
  match fv_height f with
  | Some height =>
      if negb (height =? 0) && py_ne_str (fv_vcodec f) "none" then
        match _height_to_quality height with
        | Some quality_label =>
            if (quality_label =? "")%string then qualities
            else
              match qualities !! quality_label with
              | None =>
                  <[quality_label :=
                      {| qi_height := height;
                         qi_filesize :=
                           py_or (fv_filesize f) (fv_filesize_approx f);
                         qi_ext := fv_ext f;
                         qi_available := true |}]> qualities
              | Some _ => qualities
              end
        | None => qualities
        end
      else qualities
  | None => qualities
  end.

Definition order : list string :=
  ["8k"; "4k"; "2k"; "1080p"; "720p"; "480p"; "360p"; "240p"; "144p"].

(** The body of the loop over [order]. *)
Definition result_step (qualities : gmap string QualityInfo)
    (result : list QualityEntry) (q : string) : list QualityEntry :=
  match qualities !! q with
  | Some qi =>
      result ++ [ {| qe_value := q;
                     qe_label := _get_quality_label q;
                     qe_available := true;
                     qe_filesize := qi_filesize qi |} ]
  | None => result
  end.

Definition _get_available_qualities (info : MediaDescriptor)
    : list QualityEntry :=
  let qualities := fold_left qualities_step (md_formats info) ∅ in
  fold_left (result_step qualities) order [].

(** A variant counts for bucket [b]: its video codec is not ["none"], its
    height is known and falls in [b]. *)
Definition variant_bucket (f : FormatVariant) (b : string) : Prop :=
  ∃ h, fv_height f = Some h ∧ fv_vcodec f ≠ Some "none" ∧
       _height_to_quality h = Some b.

(** The bucket a variant is filed under by the loop, if any. *)
Definition bucket_of (f : FormatVariant) : option string :=
  match fv_height f with
  | Some h => if py_ne_str (fv_vcodec f) "none" then _height_to_quality h
              else None
  | None => None
  end.

(** What the loop stores for a variant that opens its bucket. *)
Definition first_info (f : FormatVariant) : QualityInfo :=
  {| qi_height := default 0 (fv_height f);
     qi_filesize := py_or (fv_filesize f) (fv_filesize_approx f);
     qi_ext := fv_ext f;
     qi_available := true |}.

(** The entry emitted for [q], when [q] is a key of [qualities]. *)
Definition entry_of (qualities : gmap string QualityInfo) (q : string)
    : option QualityEntry :=
  (λ qi, {| qe_value := q;
            qe_label := _get_quality_label q;
            qe_available := true;
            qe_filesize := qi_filesize qi |}) <$> qualities !! q.

(** ** Download option builder *)

(** The values of the yt-dlp options dictionary. *)
Inductive OptValue :=
  | OBool (b : bool)
  | OStr (s : string)
  | OPostprocessors (pps : list (gmap string string)).

Definition quality_map : gmap string Z :=
  list_to_map [ ("8k", 4320); ("4k", 2160); ("2k", 1440); ("1080p", 1080);
                ("720p", 720); ("480p", 480); ("360p", 360); ("240p", 240);
                ("144p", 144) ].

Definition _get_download_options (quality format_type download_type : string)
    : gmap string OptValue :=
  if (download_type =? "photo")%string then
    list_to_map [ ("quiet", OBool true); ("no_warnings", OBool true) ]
  else if (download_type =? "audio")%string then
    list_to_map
      [ ("format", OStr "bestaudio/best");
        ("postprocessors",
         OPostprocessors
           [ list_to_map [ ("key", "FFmpegExtractAudio");
                           ("preferredcodec", format_type);
                           ("preferredquality", "320") ] ]);
        ("quiet", OBool false) ]
  else
    let format_string :=
      match quality_map !! quality with
      | Some height =>
          "bestvideo[height<=" +:+ pretty height +:+ "]+bestaudio/best[height<="
            +:+ pretty height +:+ "]"
      | None => "bestvideo+bestaudio/best"
      end in
    list_to_map [ ("format", OStr format_string);
                  ("merge_output_format", OStr format_type);
                  ("quiet", OBool false) ].

(** The selector of the specification for a ceiling [H]. *)
Definition ceiling_selector (H : Z) : string :=
  "bestvideo[height<=" +:+ pretty H +:+ "]+bestaudio/best[height<="
    +:+ pretty H +:+ "]".

(** ** Human-readable sizes *)

(** The number bound to [size] in [_format_filesize]: the [int] it is
    called with, then the [float]s that [size /= 1024] produces. *)
Inductive PyNum :=
  | PyInt (n : Z)
  | PyFloat (q : Q).

(** The integer nearest to [a / b] for [b > 0], ties to the even one. *)
Definition round_half_even (a b : Z) : Z :=
  let q := a / b in
  let r := a mod b in
  match 2 * r ?= b with
  | Lt => q
  | Gt => q + 1
  | Eq => if Z.even q then q else q + 1
  end.

(** [float(n)]: the binary64 number nearest to [n] (53 significant bits,
    ties to even). The sizes formatted are file sizes, far below [2^1024],
    where binary64 ends and Python raises [OverflowError] instead. *)
Definition float_of_int (n : Z) : Q :=
  let k := Z.log2 (Z.abs n) in
  if k <? 53 then inject_Z n
  else
    let u := 2 ^ (k - 52) in
    inject_Z (Z.sgn n * (round_half_even (Z.abs n) u * u)).

(** [size < 1024]. *)
Definition py_lt_1024 (size : PyNum) : bool :=
  match size with
  | PyInt n => n <? 1024
  | PyFloat q => negb (Qle_bool 1024 q)
  end.

(** [size /= 1024]: true division. An [int] dividend gives the correctly
    rounded quotient; dividing a [float] by a power of two is exact. *)
Definition py_div_1024 (size : PyNum) : PyNum :=
  match size with
  | PyInt n => PyFloat (float_of_int n / 1024)
  | PyFloat q => PyFloat (q / 1024)
  end.

Definition float_value (size : PyNum) : Q :=
  match size with
  | PyInt n => float_of_int n
  | PyFloat q => q
  end.

(** The digits of [t] tenths: [t / 10], a point, [t mod 10]. *)
Definition tenths_str (t : Z) : string :=
  pretty (t / 10) +:+ "." +:+ pretty (t mod 10).

(** [f"{size:.1f}"]: the value of [size] as a float, correctly rounded to
    one decimal (ties to even). *)
Definition format_1f (size : PyNum) : string :=
  let q := float_value size in
  (if Qnum q <? 0 then "-" else "")
    +:+ tenths_str (round_half_even (10 * Z.abs (Qnum q)) (Zpos (Qden q))).

Fixpoint format_units (units : list string) (size : PyNum) : string :=
  match units with
  | [] => format_1f size +:+ " TB"
  | unit :: rest =>
      if py_lt_1024 size then format_1f size +:+ " " +:+ unit
      else format_units rest (py_div_1024 size)
  end.

Definition _format_filesize (size : Z) : string :=
  format_units ["B"; "KB"; "MB"; "GB"] (PyInt size).

(** The units in the order the loop walks them. *)
Definition size_units : list string := ["B"; "KB"; "MB"; "GB"; "TB"].

(** [s] renders [v >= 0] with one decimal place: an integer part, a point
    and one digit, naming a tenth nearest to [v]. *)
Definition one_decimal_of (v : Q) (s : string) : Prop :=
  ∃ t : Z, 0 ≤ t ∧ s = pretty (t / 10) +:+ "." +:+ pretty (t mod 10) ∧
           0 ≤ t mod 10 ≤ 9 ∧
           (Qabs (10 * v - inject_Z t) <= 1 # 2)%Q.

(** The value after [k] divisions by 1024, starting from the float of
    [size]. *)
Definition divided (size : Z) (k : nat) : Q :=
  Nat.iter k (λ v, v / 1024)%Q (float_of_int size).

(** ** Download and result normalisation *)

(** What the two calls on the extraction service yield: an exception [e]
    with [str(e) = error_msg], or the descriptor and the file name that
    [prepare_filename] predicts. *)
Inductive ServiceResult :=
  | Raised (error_msg : string)
  | Extracted (info : MediaDescriptor) (filename : string).

(** The success envelope. *)
Record DownloadResult := mkDownloadResult {
  dr_title : option string;
  dr_filename : string;
  dr_filepath : string;
  dr_platform : option string;
  dr_filesize : Z;
  dr_filesize_readable : string
}.

Inductive Response :=
  | Success (r : DownloadResult)
  | Failure (error : string).

Definition quality_unavailable_msg : string :=
  "This quality is not available. Please try a lower quality.".

Definition empty_file_msg : string :=
  "Downloaded file is empty. Try a different quality.".

Definition not_found_msg : string := "Could not find downloaded file.".

Definition fallback_extensions : list string :=
  ["mp4"; "webm"; "mkv"; "mp3"; "m4a"; "wav"; "jpg"; "png"; "webp"].

Definition success_envelope (info : MediaDescriptor) (path : string)
    (filesize : Z) : Response :=
  Success {| dr_title := md_title info;
             dr_filename := basename path;
             dr_filepath := path;
             dr_platform := md_extractor_key info;
             dr_filesize := filesize;
             dr_filesize_readable := _format_filesize filesize |}.

(** The fallback loop over the candidate extensions. The file system maps
    each existing path to its size. *)
Fixpoint find_actual_file (fs : gmap string Z) (info : MediaDescriptor)
    (base : string) (exts : list string) : Response :=
  match exts with
  | [] => Failure not_found_msg
  | ext :: rest =>
      let test_file := base +:+ "." +:+ ext in
      match fs !! test_file with
      | Some filesize => success_envelope info test_file filesize
      | None => find_actual_file fs info base rest
      end
  end.

(** The path that is checked first: the predicted file name, its extension
    replaced by [format_type] for an audio download. *)
Definition expected_path (download_type format_type filename : string)
    : string :=
  if (download_type =? "audio")%string
  then (splitext filename).1 +:+ "." +:+ format_type
  else filename.

(** [dir ++ stem ++ "." ++ ext] is a file name with extension [ext]: the
    directory part is empty or ends with a slash, the stem has no slash
    and a character other than a dot, the extension neither dot nor
    slash. *)
Definition file_name_parts (dir stem ext : string) : Prop :=
  (dir = "" ∨ ∃ d, dir = d +:+ "/") ∧
  rfind "/" stem = -1 ∧ has_non_dot stem = true ∧
  rfind "." ext = -1 ∧ rfind "/" ext = -1.

(** The options [download] hands to the service: those of
    [_get_download_options] with the output template and the
    file-name restriction added. *)
Definition download_opts (download_path quality format_type download_type
    : string) : gmap string OptValue :=
  let ydl_opts := _get_download_options quality format_type download_type in
  let ydl_opts :=
    <["outtmpl" := OStr (path_join download_path "%(title)s.%(ext)s")]>
      ydl_opts in
  <["restrictfilenames" := OBool true]> ydl_opts.

(** [download]. The service [ydl] receives the options, the URL and the
    file system, and returns its result with the file system it leaves. *)
Definition download (download_path : string)
    (ydl : gmap string OptValue → string → gmap string Z
           → ServiceResult * gmap string Z)
    (fs : gmap string Z)
    (url quality format_type download_type : string)
    : Response * gmap string Z :=
  let ydl_opts := download_opts download_path quality format_type
                    download_type in
  match ydl ydl_opts url fs with
  | (Extracted info filename, fs') =>
      let filename := expected_path download_type format_type filename in
      match fs' !! filename with
      | Some filesize =>
          if filesize =? 0 then (Failure empty_file_msg, fs')
          else (success_envelope info filename filesize, fs')
      | None =>
          let base := (splitext filename).1 in
          (find_actual_file fs' info base fallback_extensions, fs')
      end
  | (Raised error_msg, fs') =>
      if str_in "unavailable" (lower error_msg)
      then (Failure quality_unavailable_msg, fs')
      else (Failure error_msg, fs')
  end.

(** Two services for concrete runs: one that raises [msg], one that
    writes [files] and predicts [filename]. *)
Definition ydl_raising (msg : string)
    : gmap string OptValue → string → gmap string Z
      → ServiceResult * gmap string Z :=
  λ _ _ fs, (Raised msg, fs).

Definition ydl_writing (info : MediaDescriptor) (filename : string)
    (files : gmap string Z)
    : gmap string OptValue → string → gmap string Z
      → ServiceResult * gmap string Z :=
  λ _ _ fs, (Extracted info filename, files ∪ fs).

Definition clip_info : MediaDescriptor :=
  {| md_type := None; md_webpage_url := None; md_url := None;
     md_duration := None; md_formats := [];
     md_title := Some "clip"; md_extractor_key := Some "Youtube" |}.

(** The envelope of a run that finds its ten-byte file where it was
    predicted. *)
Definition clip_mp4_result : DownloadResult :=
  {| dr_title := Some "clip"; dr_filename := "clip.mp4";
     dr_filepath := "downloads/clip.mp4"; dr_platform := Some "Youtube";
     dr_filesize := 10; dr_filesize_readable := "10.0 B" |}.

(** ** Format catalog *)

(** One entry of a format menu. *)
Record FormatOption := mkFormatOption {
  fo_value : string;
  fo_label : string;
  fo_available : bool
}.

(** The values of the dictionary [_get_available_formats] returns: the
    ['type'] string or a list of menu entries. *)
Inductive CatalogValue :=
  | CType (s : string)
  | CFormats (l : list FormatOption).

Definition _get_available_formats (info : MediaDescriptor)
    (content_type : string) : gmap string CatalogValue :=
  if (content_type =? "photo")%string then
    list_to_map
      [ ("type", CType "photo");
        ("formats",
         CFormats [ mkFormatOption "jpg" "JPG (Recommended)" true;
                    mkFormatOption "png" "PNG (High Quality)" true;
                    mkFormatOption "webp" "WebP" true ]) ]
  else if (content_type =? "audio")%string then
    list_to_map
      [ ("type", CType "audio");
        ("formats",
         CFormats [ mkFormatOption "mp3" "MP3 (Recommended)" true;
                    mkFormatOption "m4a" "M4A" true;
                    mkFormatOption "wav" "WAV (Lossless)" true ]) ]
  else
    list_to_map
      [ ("type", CType "video");
        ("video_formats",
         CFormats [ mkFormatOption "mp4" "MP4 (Recommended)" true;
                    mkFormatOption "webm" "WebM" true;
                    mkFormatOption "mkv" "MKV" true ]);
        ("audio_formats",
         CFormats [ mkFormatOption "mp3" "MP3 (Recommended)" true;
                    mkFormatOption "m4a" "M4A" true;
                    mkFormatOption "wav" "WAV" true ]) ].

(** ** Probing: [get_video_info] *)

(** A dictionary key read with a default, [d.get(k, default)]: the
    default stands in for an absent key only, a key bound to [None]
    yields [None]. *)
Inductive PyField (A : Type) :=
  | Absent
  | Null
  | Present (a : A).

Arguments Absent {A}.
Arguments Null {A}.
Arguments Present {A} a.

(** [d.get(k, default)]. *)
Definition field_get_default {A} (x : PyField A) (default : A) : option A :=
  match x with
  | Absent => Some default
  | Null => None
  | Present a => Some a
  end.

(** [d.get(k)]. *)
Definition field_get {A} (x : PyField A) : option A :=
  match x with
  | Present a => Some a
  | _ => None
  end.

(** The [info] dictionary as [get_video_info] reads it: the keys of
    [MediaDescriptor], those read with a default kept three-valued, and
    the keys that are only passed through. *)
Record ProbeInfo := mkProbeInfo {
  pi_type : option string;
  pi_webpage_url : option string;
  pi_url : option string;
  pi_duration : option Q;
  pi_formats : list FormatVariant;
  pi_title : PyField string;
  pi_extractor_key : PyField string;
  pi_uploader : PyField string;
  pi_description : PyField string;
  pi_thumbnail : option string;
  pi_view_count : option Z;
  pi_width : option Z;
  pi_height : option Z
}.

(** The same dictionary as the classification functions read it. *)
Definition descriptor_of (info : ProbeInfo) : MediaDescriptor :=
  {| md_type := pi_type info;
     md_webpage_url := pi_webpage_url info;
     md_url := pi_url info;
     md_duration := pi_duration info;
     md_formats := pi_formats info;
     md_title := field_get (pi_title info);
     md_extractor_key := field_get (pi_extractor_key info) |}.

(** The success envelope of [get_video_info]. *)
Record InfoResponse := mkInfoResponse {
  ir_title : option string;
  ir_thumbnail : option string;
  ir_duration : option Q;
  ir_platform : option string;
  ir_uploader : option string;
  ir_view_count : option Z;
  ir_content_type : string;
  ir_available_qualities : list QualityEntry;
  ir_available_formats : gmap string CatalogValue;
  ir_description : string;
  ir_width : option Z;
  ir_height : option Z
}.

Inductive InfoResult :=
  | InfoSuccess (r : InfoResponse)
  | InfoFailure (error : string).

(** The options of the probe. *)
Definition probe_opts : gmap string OptValue :=
  list_to_map [ ("quiet", OBool true); ("no_warnings", OBool true);
                ("extract_flat", OBool false) ].

(** [str(e)] for the [TypeError] of [None[:200]]. *)
Definition not_subscriptable_msg : string :=
  "'NoneType' object is not subscriptable".

(** [get_video_info]. The service [ydl] receives the options and the URL
    and raises (left) or returns the dictionary (right); nothing is
    downloaded. The description is sliced last, after the other entries
    of the envelope are built. *)
Definition get_video_info
    (ydl : gmap string OptValue → string → string + ProbeInfo)
    (url : string) : InfoResult :=
  match ydl probe_opts url with
  | inr info =>
      let content_type := _detect_content_type (descriptor_of info) in
      let available_qualities :=
        _get_available_qualities (descriptor_of info) in
      let available_formats :=
        _get_available_formats (descriptor_of info) content_type in
      match field_get_default (pi_description info) "" with
      | Some description =>
          InfoSuccess
            {| ir_title := field_get_default (pi_title info) "Unknown";
               ir_thumbnail := pi_thumbnail info;
               ir_duration := pi_duration info;
               ir_platform :=
                 field_get_default (pi_extractor_key info) "Unknown";
               ir_uploader := field_get_default (pi_uploader info) "Unknown";
               ir_view_count := pi_view_count info;
               ir_content_type := content_type;
               ir_available_qualities := available_qualities;
               ir_available_formats := available_formats;
               ir_description := str_take 200 description;
               ir_width := pi_width info;
               ir_height := pi_height info |}
      | None => InfoFailure not_subscriptable_msg
      end
  | inl error_msg => InfoFailure error_msg
  end.

(** A probing service with a fixed outcome, and a dictionary for
    concrete runs: one 1080p variant with both codecs, two minutes long. *)
Definition ydl_probing (outcome : string + ProbeInfo)
    : gmap string OptValue → string → string + ProbeInfo :=
  λ _ _, outcome.

Definition clip_probe : ProbeInfo :=
  {| pi_type := None;
     pi_webpage_url := Some "https://example.com/watch/1";
     pi_url := None;
     pi_duration := Some 120%Q;
     pi_formats :=
       [ mkFormat (Some 1080) (Some "avc1") (Some "mp4a") (Some "mp4")
           (Some 1000) None ];
     pi_title := Present "clip";
     pi_extractor_key := Present "Youtube";
     pi_uploader := Absent;
     pi_description := Present "A short clip.";
     pi_thumbnail := None;
     pi_view_count := Some 7;
     pi_width := Some 1920;
     pi_height := Some 1080 |}.

(** ** The API routes of [app.py] *)

(** The module-level [downloader = SocialDownloader(download_path=...)]. *)
Definition downloader_path : string := "downloads".

Definition url_required_msg : string := "URL is required".

(** [if not url] for [url = data.get('url')]. *)
Definition url_missing (url : option string) : bool :=
  match url with
  | Some u => (u =? "")%string
  | None => true
  end.

(** [POST /api/info]. [data] is the JSON object of the request, its
    values strings; the result is the status code and the body. *)
Definition get_info
    (ydl : gmap string OptValue → string → string + ProbeInfo)
    (data : gmap string string) : Z * InfoResult :=
  let url := data !! "url" in
  if url_missing url then (400, InfoFailure url_required_msg)
  else (200, get_video_info ydl (default "" url)).

(** [POST /api/download], with the file system threaded through. *)
Definition download_media
    (ydl : gmap string OptValue → string → gmap string Z
           → ServiceResult * gmap string Z)
    (fs : gmap string Z) (data : gmap string string)
    : (Z * Response) * gmap string Z :=
  let url := data !! "url" in
  let quality := default "highest" (data !! "quality") in
  let format_type := default "mp4" (data !! "format") in
  let download_type := default "video" (data !! "download_type") in
  if url_missing url then ((400, Failure url_required_msg), fs)
  else
    let '(result, fs') :=
      download downloader_path ydl fs (default "" url) quality format_type
        download_type in
    ((200, result), fs').

(** ** Proof automation *)

(** Split a membership in [bucket_table] into its nine cases. *)
Ltac table_cases H :=
  unfold bucket_table in H;
  repeat (apply elem_of_cons in H as [H | H]; [injection H as -> -> |]);
  try (apply elem_of_nil in H; destruct H).

(** Prove a membership in a list given by its elements. *)
Ltac in_list :=
  repeat first [ apply list_elem_of_here | apply list_elem_of_further ].

(** Case analysis on every comparison [x >=? y] in sight. *)
Ltac split_geb :=
  repeat match goal with
         | |- context [?x >=? ?y] => destruct (Z.geb_spec x y)
         | H : context [?x >=? ?y] |- _ => destruct (Z.geb_spec x y)
         end.

(** * Properties *)

Section QualityClassifier.

Lemma height_to_quality_highest (h : Z) (b : string) :
  _height_to_quality h = Some b ↔ highest_threshold_bucket h b.
Proof.
  unfold _height_to_quality, highest_threshold_bucket.
  split.
  - intros Hq. split_geb; try discriminate; injection Hq as <-;
      (eexists; split; [ unfold bucket_table; in_list | ]);
      (split; [ lia | intros t' b' Hin Hle; table_cases Hin; lia ]).
  - intros (t & Hin & Hle & Hmax).
    assert (Hall : Forall (λ e, e.1 ≤ h → e.1 ≤ t) bucket_table).
    { apply Forall_forall. intros [t' b'] Hin'. simpl. eauto. }
    unfold bucket_table in Hall.
    repeat (apply Forall_cons in Hall as [? Hall]). simpl in *.
    table_cases Hin; split_geb; first [ reflexivity | lia ].
Qed.

Lemma height_to_quality_none (h : Z) :
  _height_to_quality h = None ↔ h < 144.
Proof.
  unfold _height_to_quality. split; intros H; split_geb;
    first [ discriminate | lia | reflexivity ].
Qed.

(** C2. [_height_to_quality] returns, for every integer height (so for
    every positive one), the bucket of the highest threshold of the table
    4320, 2160, 1440, 1080, 720, 480, 360, 240, 144 that is at most the
    height, and no bucket exactly when the height is below 144; 2160 gives
    4k, 1080 gives 1080p and 143 gives none. *)
Theorem height_to_quality_table (height : Z) :
  (∀ b, _height_to_quality height = Some b
        ↔ highest_threshold_bucket height b) ∧
  (_height_to_quality height = None ↔ height < 144) ∧
  _height_to_quality 2160 = Some "4k" ∧
  _height_to_quality 1080 = Some "1080p" ∧
  _height_to_quality 143 = None.
Proof.
  split; [ intros b; apply height_to_quality_highest | ].
  split; [ apply height_to_quality_none | ].
  repeat split; reflexivity.
Qed.

Lemma quality_rank_order :
  quality_rank <$> (Some <$> order) = [9; 8; 7; 6; 5; 4; 3; 2; 1].
Proof. reflexivity. Qed.

(** C9. [_height_to_quality] is monotone: a height that is not smaller gets
    a bucket that is not lower in the order
    none < 144p < 240p < 360p < 480p < 720p < 1080p < 2k < 4k < 8k. *)
Theorem height_to_quality_monotone (h1 h2 : Z) :
  h1 ≤ h2 →
  quality_rank (_height_to_quality h1) ≤ quality_rank (_height_to_quality h2).
Proof.
  intros Hle. unfold _height_to_quality.
  split_geb; first [ lia | vm_compute; discriminate ].
Qed.

Lemma height_to_quality_monotone_witness :
  quality_rank (_height_to_quality 700) ≤ quality_rank (_height_to_quality 1080)
  ∧ quality_rank (_height_to_quality 700) = 4
  ∧ quality_rank (_height_to_quality 1080) = 6.
Proof.
  split; [ apply (height_to_quality_monotone 700 1080); lia | ].
  split; reflexivity.
Defined.

End QualityClassifier.

Section Strings.

Lemma str_app_cons (a : ascii) (s t : string) :
  String a s +:+ t = String a (s +:+ t).
Proof. reflexivity. Qed.

Lemma str_app_nil_l (s : string) : "" +:+ s = s.
Proof. reflexivity. Qed.

Lemma str_app_nil_r (s : string) : s +:+ "" = s.
Proof. induction s as [|a s IH]; [ done | by rewrite str_app_cons, IH ]. Qed.

Lemma str_app_assoc (s t u : string) : (s +:+ t) +:+ u = s +:+ t +:+ u.
Proof. induction s as [|a s IH]; [ done | by rewrite !str_app_cons, IH ]. Qed.

Lemma str_app_length (s t : string) :
  String.length (s +:+ t) = (String.length s + String.length t)%nat.
Proof. induction s as [|a s IH]; [ done | rewrite str_app_cons; simpl; lia ]. Qed.

Lemma prefix_spec (p s : string) :
  String.prefix p s = true ↔ ∃ t, s = p +:+ t.
Proof.
  revert s. induction p as [|a p IH]; intros s.
  - destruct s; simpl; split; eauto.
  - destruct s as [|b s]; simpl.
    + split; [ discriminate | intros [t Ht]; discriminate ].
    + destruct (ascii_dec a b) as [-> | Hne].
      * rewrite IH. split; intros [t Ht]; exists t.
        -- by rewrite str_app_cons, <- Ht.
        -- rewrite str_app_cons in Ht. by injection Ht.
      * split; [ discriminate | intros [t Ht] ].
        rewrite str_app_cons in Ht. injection Ht as -> _. done.
Qed.

(** [pat in s] holds exactly when [s] splits around an occurrence of [pat]. *)
Lemma str_in_spec (pat s : string) :
  str_in pat s = true ↔ ∃ pre post, s = pre +:+ pat +:+ post.
Proof.
  induction s as [|a s IH].
  - cbn [str_in]. rewrite orb_false_r, prefix_spec. split.
    + intros [t Ht]. by exists "", t.
    + intros (pre & post & H). destruct pre; [ by exists post | discriminate ].
  - cbn [str_in]. rewrite orb_true_iff, prefix_spec, IH. split.
    + intros [[t Ht] | (pre & post & H)].
      * by exists "", t.
      * exists (String a pre), post. by rewrite str_app_cons, H.
    + intros (pre & post & H). destruct pre as [|b pre].
      * left. by exists post.
      * right. rewrite str_app_cons in H. injection H as _ H. by exists pre, post.
Qed.

Lemma lower_app (s t : string) : lower (s +:+ t) = lower s +:+ lower t.
Proof. induction s as [|a s IH]; [ done | rewrite str_app_cons; simpl; by rewrite IH ]. Qed.

Lemma lower_split (s a b : string) :
  lower s = a +:+ b → ∃ a' b', s = a' +:+ b' ∧ lower a' = a ∧ lower b' = b.
Proof.
  revert s. induction a as [|c a IH]; intros s H.
  - by exists "", s.
  - destruct s as [|d s]; [ discriminate | ].
    rewrite str_app_cons in H. simpl in H. injection H as Hc H.
    destruct (IH _ H) as (a' & b' & -> & <- & <-).
    exists (String d a'), b'. by rewrite <- Hc.
Qed.

(** On a lower-case pattern, the test [pat in s.lower()] is containment up
    to case. *)
Lemma str_in_lower (s pat : string) :
  lower pat = pat → (str_in pat (lower s) = true ↔ contains_ci s pat).
Proof.
  intros Hpat. rewrite str_in_spec. unfold contains_ci. split.
  - intros (pre & post & H).
    destruct (lower_split _ _ _ H) as (pre' & rest & -> & _ & Hrest).
    destruct (lower_split _ _ _ Hrest) as (mid & post' & -> & Hmid & _).
    exists pre', mid, post'. by rewrite Hpat.
  - intros (pre & mid & post & -> & Hmid).
    exists (lower pre), (lower post). by rewrite !lower_app, Hmid, Hpat.
Qed.

Lemma str_take_drop (n : nat) (s : string) : str_take n s +:+ str_drop n s = s.
Proof.
  revert s. induction n as [|n IH]; intros [|a s]; try done.
  simpl. by rewrite str_app_cons, IH.
Qed.

(** [splitext] cuts its argument in two: root and extension together are
    the path. *)
Lemma splitext_app (p : string) : (splitext p).1 +:+ (splitext p).2 = p.
Proof.
  unfold splitext. destruct (_ && _); simpl.
  - apply str_take_drop.
  - apply str_app_nil_r.
Qed.

Lemma rfind_range (c : ascii) (s : string) :
  -1 ≤ rfind c s < Z.of_nat (String.length s).
Proof.
  induction s as [|a s IH]; simpl; [ lia | ].
  destruct (Z.leb_spec 0 (rfind c s)); [ lia | ].
  destruct (Ascii.eqb a c); lia.
Qed.

Lemma rfind_app (c : ascii) (s t : string) :
  rfind c (s +:+ t) =
  if 0 <=? rfind c t then Z.of_nat (String.length s) + rfind c t
  else rfind c s.
Proof.
  induction s as [|a s IH].
  - rewrite str_app_nil_l. pose proof (rfind_range c t).
    destruct (Z.leb_spec 0 (rfind c t)); simpl; lia.
  - rewrite str_app_cons. cbn [rfind String.length]. rewrite IH.
    destruct (Z.leb_spec 0 (rfind c t)) as [Ht | Ht]; [ | done ].
    destruct (Z.leb_spec 0 (Z.of_nat (String.length s) + rfind c t)); lia.
Qed.

Lemma str_take_app (s t : string) : str_take (String.length s) (s +:+ t) = s.
Proof. induction s as [|a s IH]; [ by destruct t | ]. simpl. by rewrite IH. Qed.

Lemma str_drop_app (s t : string) : str_drop (String.length s) (s +:+ t) = t.
Proof. induction s as [|a s IH]; [ by destruct t | done ]. Qed.

(** On a path [dir ++ stem ++ "." ++ ext] whose directory part is empty or
    ends with a slash, whose stem has no slash and a character other than
    a dot, and whose extension has neither dot nor slash, [splitext]
    cuts before the last dot. *)
Lemma splitext_stem_ext (dir stem ext : string) :
  (dir = "" ∨ ∃ d, dir = d +:+ "/") →
  rfind "/" stem = -1 → has_non_dot stem = true →
  rfind "." ext = -1 → rfind "/" ext = -1 →
  splitext (dir +:+ stem +:+ "." +:+ ext) = (dir +:+ stem, "." +:+ ext).
Proof.
  intros Hdir Hstem Hnondot Hext Hext'.
  assert (rfind "/" dir + 1 = Z.of_nat (String.length dir)) as Hsep.
  { destruct Hdir as [-> | [d ->]]; [ done | ].
    rewrite rfind_app, str_app_length. simpl. lia. }
  assert (rfind "." ("." +:+ ext) = 0) as Hdot.
  { change ("." +:+ ext) with (String "." ext). cbn [rfind]. by rewrite Hext. }
  assert (rfind "/" ("." +:+ ext) = -1) as Hnosep.
  { change ("." +:+ ext) with (String "." ext). cbn [rfind]. by rewrite Hext'. }
  unfold splitext.
  replace (rfind "." (dir +:+ stem +:+ "." +:+ ext))
    with (Z.of_nat (String.length (dir +:+ stem))).
  2: { rewrite <- str_app_assoc, rfind_app, Hdot. simpl. lia. }
  replace (rfind "/" (dir +:+ stem +:+ "." +:+ ext)) with (rfind "/" dir).
  2: { rewrite <- str_app_assoc, rfind_app, Hnosep. simpl.
       by rewrite rfind_app, Hstem. }
  rewrite Hsep, str_app_length, !Nat2Z.id.
  replace (Z.to_nat (Z.of_nat (String.length dir + String.length stem)
                     - Z.of_nat (String.length dir)))
    with (String.length stem) by lia.
  rewrite str_drop_app, str_take_app, Hnondot.
  pose proof (rfind_range "/" dir).
  rewrite (proj2 (Z.ltb_lt _ _)) by lia. simpl.
  rewrite <- str_app_length, <- (str_app_assoc dir stem).
  by rewrite str_take_app, str_drop_app.
Qed.

Lemma splitext_examples :
  splitext "downloads/song.webm" = ("downloads/song", ".webm") ∧
  splitext "downloads/clip" = ("downloads/clip", "") ∧
  splitext "downloads/.hidden" = ("downloads/.hidden", "") ∧
  splitext "my.dir/clip" = ("my.dir/clip", "") ∧
  splitext "archive.tar.gz" = ("archive.tar", ".gz") ∧
  basename "downloads/clip.mkv" = "clip.mkv" ∧
  path_join "downloads" "%(title)s.%(ext)s" = "downloads/%(title)s.%(ext)s".
Proof. repeat split; reflexivity. Qed.

End Strings.

Section ContentTypeDetector.

Lemma photo_url_patterns_lower (pat : string) :
  pat ∈ photo_url_patterns → lower pat = pat.
Proof.
  unfold photo_url_patterns. intros H.
  repeat (apply elem_of_cons in H as [-> | H]; [ reflexivity | ]).
  by apply elem_of_nil in H.
Qed.

Lemma url_test_spec (info : MediaDescriptor) :
  existsb (λ x, str_in x (lower (content_url info))) photo_url_patterns = true
  ↔ url_is_photo info.
Proof.
  rewrite existsb_exists. unfold url_is_photo.
  split; intros (pat & Hin & H); exists pat.
  - apply list_elem_of_In in Hin. split; [ done | ].
    by apply str_in_lower; [ apply photo_url_patterns_lower | ].
  - split; [ by apply list_elem_of_In | ].
    by apply str_in_lower; [ apply photo_url_patterns_lower | ].
Qed.

Lemma has_codec_spec (codec : FormatVariant → option string)
    (info : MediaDescriptor) :
  has_codec codec (md_formats info) = true ↔ codec_present codec info.
Proof.
  unfold has_codec, codec_present. rewrite existsb_exists. split.
  - intros (f & Hin & H). apply andb_true_iff in H as [Hne Hsome].
    destruct (codec f) as [c|] eqn:Hc; [ | discriminate ].
    exists f, c. split; [ by apply list_elem_of_In | ]. split; [ done | ].
    simpl in Hne. apply negb_true_iff in Hne. by apply String.eqb_neq.
  - intros (f & c & Hin & Hc & Hne). exists f.
    split; [ by apply list_elem_of_In | ].
    rewrite Hc. simpl. rewrite andb_true_r. apply negb_true_iff.
    by apply String.eqb_neq.
Qed.

Lemma duration_test_spec (info : MediaDescriptor) :
  match md_duration info with
  | None => true
  | Some d => Qeq_bool d 0
  end = true ↔ duration_null_or_zero info.
Proof.
  unfold duration_null_or_zero. destruct (md_duration info) as [d|].
  - rewrite Qeq_bool_iff. split.
    + intros H. right. by exists d.
    + intros [H | (d' & H & Hd)]; [ discriminate | ]. by injection H as ->.
  - split; [ by left | done ].
Qed.

(** C1. [_detect_content_type] is total and follows the decision order
    with first match winning: (1) type tag "image" gives photo; (2) a URL
    containing one of the six patterns up to case gives photo; (3, 4) no
    variant with a video codec and none with an audio codec (present and
    not "none") gives photo; (5) audio without video gives audio; (6)
    duration null or zero and no audio gives photo; (7) otherwise video.
    A descriptor tagged "image" is a photo whatever its other fields. *)
Theorem detect_content_type_decision_order (info : MediaDescriptor) :
  (∃ c, _detect_content_type info = ContentType_str c
        ∧ first_match (classify_rules info) video c) ∧
  (∀ winfo wurl wduration wformats wtitle wkey,
     _detect_content_type
       (mkInfo (Some "image") winfo wurl wduration wformats wtitle wkey)
     = "photo").
Proof.
  split; [ | reflexivity ].
  unfold _detect_content_type, classify_rules, first_match.
  pose proof (url_test_spec info) as Hurl.
  pose proof (has_codec_spec fv_vcodec info) as Hv.
  pose proof (has_codec_spec fv_acodec info) as Ha.
  pose proof (duration_test_spec info) as Hd.
  fold (declared_image info).
  destruct (bool_decide_reflect (declared_image info)) as [Himg | Himg].
  { exists photo. split; [ done | by left ]. }
  destruct (existsb _ photo_url_patterns).
  { exists photo. split; [ done | ]. right. split; [ done | ].
    left. split; [ by apply Hurl | done ]. }
  assert (¬ url_is_photo info) as Hnurl by (rewrite <- Hurl; discriminate).
  destruct (has_codec fv_vcodec _), (has_codec fv_acodec _);
    destruct (match md_duration info with None => true | Some d => _ end);
    simpl;
    first [ exists photo; split; [ reflexivity | ]
          | exists audio; split; [ reflexivity | ]
          | exists video; split; [ reflexivity | ] ];
    intuition (first [ discriminate | congruence | auto ]).
Qed.

End ContentTypeDetector.

Section AvailableQualities.

Implicit Types (f : FormatVariant) (b q : string).
Implicit Types (qualities : gmap string QualityInfo).

Lemma height_to_quality_in_order h b :
  _height_to_quality h = Some b → b ∈ order.
Proof.
  unfold _height_to_quality, order. intros H.
  repeat (match type of H with
          | context [?x >=? ?y] => destruct (x >=? y)
          end; [ injection H as <-; set_solver | ]).
  discriminate.
Qed.

Lemma height_to_quality_nonempty h b :
  _height_to_quality h = Some b → (b =? "")%string = false.
Proof.
  intros H%height_to_quality_in_order. unfold order in H.
  repeat (apply elem_of_cons in H as [-> | H]; [ reflexivity | ]).
  by apply elem_of_nil in H.
Qed.

Lemma bucket_of_spec f b : bucket_of f = Some b ↔ variant_bucket f b.
Proof.
  unfold bucket_of, variant_bucket. destruct (fv_height f) as [h|].
  - destruct (fv_vcodec f) as [c|]; simpl.
    + destruct (String.eqb_spec c "none") as [-> | Hne]; simpl.
      * split; [ discriminate | intros (h' & _ & Hc & _); by destruct Hc ].
      * split.
        -- intros H. exists h. repeat split; [ congruence | done ].
        -- intros (h' & Hh & _ & H). by injection Hh as ->.
    + split.
      * intros H. by exists h.
      * intros (h' & Hh & _ & H). by injection Hh as ->.
  - split; [ discriminate | intros (h' & Hh & _); discriminate ].
Qed.

(** One round of the loop: a bucket already present keeps its value; an
    absent one is opened by a variant filed under it. *)
Lemma qualities_step_lookup qualities f b :
  qualities_step qualities f !! b =
  match qualities !! b with
  | Some x => Some x
  | None => if bool_decide (bucket_of f = Some b) then Some (first_info f)
            else None
  end.
Proof.
  unfold qualities_step, bucket_of, first_info.
  destruct (fv_height f) as [h|]; simpl;
    [ | by destruct (qualities !! b) ].
  destruct (Z.eqb_spec h 0) as [-> | Hh]; simpl.
  { destruct (py_ne_str _ _); by destruct (qualities !! b). }
  destruct (py_ne_str _ _); simpl; [ | by destruct (qualities !! b) ].
  destruct (_height_to_quality h) as [l|] eqn:Hl;
    [ | by destruct (qualities !! b) ].
  rewrite (height_to_quality_nonempty _ _ Hl).
  destruct (decide (l = b)) as [-> | Hne].
  - rewrite bool_decide_eq_true_2 by done.
    destruct (qualities !! b) eqn:Hb; [ done | by rewrite lookup_insert_eq ].
  - rewrite bool_decide_eq_false_2 by congruence.
    destruct (qualities !! l); [ by destruct (qualities !! b) | ].
    rewrite lookup_insert_ne by done. by destruct (qualities !! b).
Qed.

(** The whole loop: each bucket holds what its first variant stored. *)
Lemma fold_qualities_lookup (formats : list FormatVariant) qualities b :
  fold_left qualities_step formats qualities !! b =
  match qualities !! b with
  | Some x => Some x
  | None =>
      (λ p, first_info p.2) <$> list_find (λ f, bucket_of f = Some b) formats
  end.
Proof.
  revert qualities. induction formats as [|f formats IH]; intros qualities.
  - simpl. by destruct (qualities !! b).
  - cbn [fold_left]. rewrite IH, qualities_step_lookup.
    destruct (qualities !! b); [ done | ].
    cbn [list_find]. unfold bool_decide. destruct (decide_rel _ _ _) as [Hb | Hb].
    + by rewrite decide_True.
    + rewrite decide_False by done.
      by destruct (list_find _ formats) as [[i g]|].
Qed.

Lemma fold_qualities_keeps (formats : list FormatVariant) qualities b x :
  qualities !! b = Some x →
  fold_left qualities_step formats qualities !! b = Some x.
Proof. intros H. by rewrite fold_qualities_lookup, H. Qed.

Lemma fold_result qualities (l : list string) (acc : list QualityEntry) :
  fold_left (result_step qualities) l acc
  = (acc ++ omap (entry_of qualities) l)%list.
Proof.
  revert acc. induction l as [|q l IH]; intros acc; simpl.
  - by rewrite app_nil_r.
  - rewrite IH. unfold result_step, entry_of.
    destruct (qualities !! q); simpl; [ by rewrite <- app_assoc | done ].
Qed.

Lemma omap_entry_values qualities (l : list string) :
  qe_value <$> omap (entry_of qualities) l
  = filter (λ q, is_Some (qualities !! q)) l.
Proof.
  induction l as [|q l IH]; [ done | ].
  change (omap (entry_of qualities) (q :: l))
    with (match entry_of qualities q with
          | Some e => e :: omap (entry_of qualities) l
          | None => omap (entry_of qualities) l
          end).
  unfold entry_of at 1.
  destruct (qualities !! q) eqn:Hq; simpl.
  - rewrite filter_cons_True by (rewrite Hq; eauto). by rewrite <- IH.
  - rewrite filter_cons_False by (rewrite Hq; intros [? ?]; done). done.
Qed.

Lemma available_qualities_values (info : MediaDescriptor) :
  qe_value <$> _get_available_qualities info
  = filter (λ q, is_Some (fold_left qualities_step (md_formats info) ∅ !! q))
           order.
Proof.
  unfold _get_available_qualities. rewrite fold_result. apply omap_entry_values.
Qed.

Lemma bucket_opened (formats : list FormatVariant) b :
  is_Some (fold_left qualities_step formats ∅ !! b)
  ↔ ∃ f, f ∈ formats ∧ variant_bucket f b.
Proof.
  rewrite fold_qualities_lookup, lookup_empty, fmap_is_Some. split.
  - intros [[i f] (Hi & Hb & _)%list_find_Some].
    exists f. split; [ by eapply list_elem_of_lookup_2 | by apply bucket_of_spec ].
  - intros (f & Hin & Hb%bucket_of_spec).
    by eapply list_find_elem_of.
Qed.

Lemma available_qualities_entry (info : MediaDescriptor) (e : QualityEntry) :
  e ∈ _get_available_qualities info →
  qe_value e ∈ order ∧
  qe_label e = _get_quality_label (qe_value e) ∧
  qe_available e = true ∧
  ∃ i f, list_find (λ f, bucket_of f = Some (qe_value e)) (md_formats info)
         = Some (i, f)
         ∧ qe_filesize e = py_or (fv_filesize f) (fv_filesize_approx f).
Proof.
  unfold _get_available_qualities. rewrite fold_result, app_nil_l.
  intros (q & Hq & He)%list_elem_of_omap. unfold entry_of in He.
  rewrite fold_qualities_lookup, lookup_empty in He.
  destruct (list_find _ (md_formats info)) as [[i f]|] eqn:Hfind;
    [ | discriminate ].
  injection He as <-. simpl. repeat split; [ done | ]. by exists i, f.
Qed.

Lemma quality_label_in_table q :
  q ∈ order → (q, _get_quality_label q) ∈ label_table.
Proof.
  unfold order. intros H.
  repeat (apply elem_of_cons in H as [-> | H];
          [ vm_compute; in_list | ]).
  by apply elem_of_nil in H.
Qed.

Lemma NoDup_order : NoDup order.
Proof. apply (bool_decide_unpack _). by vm_compute. Qed.

(** C3. [_get_available_qualities] files under a bucket exactly the
    variants whose video codec is not "none" and whose height is known and
    reaches a threshold; a bucket keeps the file size of the first variant
    filed under it (a value once stored is never replaced); the output has
    at most one entry per bucket, in the order 8k, 4k, 2k, 1080p, 720p,
    480p, 360p, 240p, 144p whatever the order of the variants, buckets
    without a variant left out; each entry carries its label from the
    static table, "Full HD (1080p)" for 1080p. *)
Theorem available_qualities_spec (info : MediaDescriptor) :
  (∀ b, b ∈ qe_value <$> _get_available_qualities info
        ↔ ∃ f, f ∈ md_formats info ∧ variant_bucket f b) ∧
  (∀ e, e ∈ _get_available_qualities info →
        ∃ i f, md_formats info !! i = Some f
               ∧ variant_bucket f (qe_value e)
               ∧ (∀ j f', md_formats info !! j = Some f' → (j < i)%nat →
                          ¬ variant_bucket f' (qe_value e))
               ∧ qe_filesize e
                 = py_or (fv_filesize f) (fv_filesize_approx f)) ∧
  (∀ (formats : list FormatVariant) (qualities : gmap string QualityInfo) b x,
     qualities !! b = Some x →
     fold_left qualities_step formats qualities !! b = Some x) ∧
  NoDup (qe_value <$> _get_available_qualities info) ∧
  (qe_value <$> _get_available_qualities info) `sublist_of` order ∧
  (∀ info', md_formats info' ≡ₚ md_formats info →
            qe_value <$> _get_available_qualities info'
            = qe_value <$> _get_available_qualities info) ∧
  (∀ e, e ∈ _get_available_qualities info →
        (qe_value e, qe_label e) ∈ label_table ∧ qe_available e = true) ∧
  ("1080p", "Full HD (1080p)") ∈ label_table.
Proof.
  split_and!.
  - intros b. rewrite available_qualities_values, list_elem_of_filter.
    rewrite bucket_opened. split; [ tauto | ].
    intros (f & Hin & Hb). split; [ by exists f | ].
    destruct Hb as (h & _ & _ & Hq). by eapply height_to_quality_in_order.
  - intros e (_ & _ & _ & i & f & Hfind & Hsize)%available_qualities_entry.
    apply list_find_Some in Hfind as (Hi & Hb & Hfirst).
    exists i, f. split_and!; [ done | by apply bucket_of_spec | | done ].
    intros j f' Hj Hlt Hb'%bucket_of_spec. by eapply Hfirst.
  - intros formats qualities b x. apply fold_qualities_keeps.
  - rewrite available_qualities_values. apply NoDup_filter, NoDup_order.
  - rewrite available_qualities_values. apply sublist_filter.
  - intros info' Hperm. rewrite !available_qualities_values.
    apply list_filter_iff. intros q. rewrite !bucket_opened.
    split; intros (f & Hin & Hb); exists f; split; try done.
    + by rewrite <- Hperm.
    + by rewrite Hperm.
  - intros e (Hord & Hlabel & Hav & _)%available_qualities_entry.
    split; [ | done ]. rewrite Hlabel. by apply quality_label_in_table.
  - unfold label_table. set_solver.
Qed.

(** A variant without a video codec entry still opens a bucket: only the
    literal "none" keeps it out. *)
Lemma available_qualities_absent_codec :
  qe_value <$> _get_available_qualities
    (mkInfo None None None None
       [ mkFormat (Some 1080) None None None None None ] None None)
  = ["1080p"].
Proof. reflexivity. Qed.

End AvailableQualities.

Section DownloadOptions.

Lemma quality_map_known (H : Z) (quality : string) :
  (H, quality) ∈ bucket_table → quality_map !! quality = Some H.
Proof.
  unfold bucket_table. intros Hin.
  repeat (apply elem_of_cons in Hin as [Hin | Hin];
          [ injection Hin as -> ->; reflexivity | ]).
  by apply elem_of_nil in Hin.
Qed.

Lemma quality_map_unknown (quality : string) :
  (∀ H, (H, quality) ∉ bucket_table) → quality_map !! quality = None.
Proof.
  intros Hnot. unfold quality_map. apply not_elem_of_list_to_map_1.
  cbn [fmap list_fmap fst]. intros Hin.
  repeat (apply elem_of_cons in Hin as [-> | Hin];
          [ eapply Hnot; unfold bucket_table; in_list | ]).
  by apply elem_of_nil in Hin.
Qed.

(** C4. [_get_download_options]: a photo download gets the two-flag
    passthrough options with no format, post-processing or merge
    directive; an audio download asks for the best audio stream and one
    FFmpegExtractAudio step converting to [format_type] at quality 320;
    any other download type is a video download, whose selector is
    bestvideo[height<=H]+bestaudio/best[height<=H] for a quality that is a
    bucket of threshold H and bestvideo+bestaudio/best for any other
    quality (such as "highest"), merged into container [format_type]. *)
Theorem download_options_spec (quality format_type download_type : string) :
  (_get_download_options quality format_type "photo"
   = <["quiet" := OBool true]> (<["no_warnings" := OBool true]> ∅)
   ∧ _get_download_options quality format_type "photo" !! "format" = None
   ∧ _get_download_options quality format_type "photo" !! "postprocessors"
     = None
   ∧ _get_download_options quality format_type "photo"
       !! "merge_output_format" = None) ∧
  (_get_download_options quality format_type "audio" !! "format"
   = Some (OStr "bestaudio/best")
   ∧ _get_download_options quality format_type "audio" !! "postprocessors"
     = Some (OPostprocessors
               [ <["key" := "FFmpegExtractAudio"]>
                   (<["preferredcodec" := format_type]>
                      (<["preferredquality" := "320"]> ∅)) ])) ∧
  (download_type ≠ "photo" → download_type ≠ "audio" →
   _get_download_options quality format_type download_type
     !! "merge_output_format" = Some (OStr format_type)
   ∧ _get_download_options quality format_type download_type
       !! "postprocessors" = None
   ∧ (∀ H, (H, quality) ∈ bucket_table →
           _get_download_options quality format_type download_type !! "format"
           = Some (OStr (ceiling_selector H)))
   ∧ ((∀ H, (H, quality) ∉ bucket_table) →
      _get_download_options quality format_type download_type !! "format"
      = Some (OStr "bestvideo+bestaudio/best"))) ∧
  _get_download_options "highest" format_type "video" !! "format"
  = Some (OStr "bestvideo+bestaudio/best") ∧
  ceiling_selector 1080
  = "bestvideo[height<=1080]+bestaudio/best[height<=1080]".
Proof.
  split_and!; try reflexivity.
  intros Hphoto%String.eqb_neq Haudio%String.eqb_neq.
  unfold _get_download_options. rewrite Hphoto, Haudio.
  split_and!; try reflexivity.
  - intros H Hin. by rewrite (quality_map_known _ _ Hin).
  - intros Hnot. by rewrite (quality_map_unknown _ Hnot).
Qed.

Lemma download_options_spec_witness :
  _get_download_options "720p" "mkv" "video" !! "format"
  = Some (OStr "bestvideo[height<=720]+bestaudio/best[height<=720]")
  ∧ _get_download_options "720p" "mkv" "video" !! "merge_output_format"
    = Some (OStr "mkv").
Proof.
  destruct (download_options_spec "720p" "mkv" "video")
    as (_ & _ & Hvideo & _).
  destruct Hvideo as (Hmerge & _ & Hknown & _); [ discriminate .. | ].
  split; [ | exact Hmerge ].
  apply (Hknown 720). unfold bucket_table. in_list.
Defined.

End DownloadOptions.

Section Download.

Context (download_path : string).
Context (ydl : gmap string OptValue → string → gmap string Z
               → ServiceResult * gmap string Z).
Context (fs : gmap string Z).
Context (url quality format_type download_type : string).

Implicit Types (info : MediaDescriptor).
Implicit Types (base ext filename msg : string).

Lemma find_actual_file_first (fs' : gmap string Z) info base (tried rest : list string) ext size :
  (∀ e, e ∈ tried → fs' !! (base +:+ "." +:+ e) = None) →
  fs' !! (base +:+ "." +:+ ext) = Some size →
  find_actual_file fs' info base (tried ++ ext :: rest)
  = success_envelope info (base +:+ "." +:+ ext) size.
Proof.
  intros Htried Hext. induction tried as [|e tried IH]; simpl.
  - by rewrite Hext.
  - rewrite (Htried e) by set_solver. apply IH. intros e' He'.
    apply Htried. set_solver.
Qed.

Lemma find_actual_file_none (fs' : gmap string Z) info base (exts : list string) :
  (∀ e, e ∈ exts → fs' !! (base +:+ "." +:+ e) = None) →
  find_actual_file fs' info base exts = Failure not_found_msg.
Proof.
  intros Hnone. induction exts as [|e exts IH]; simpl; [ done | ].
  rewrite (Hnone e) by set_solver. apply IH. intros e' He'.
  apply Hnone. set_solver.
Qed.

(** Whatever the fallback loop finds, it reports as a success. *)
Lemma find_actual_file_found (fs' : gmap string Z) info base (exts : list string) ext :
  ext ∈ exts → is_Some (fs' !! (base +:+ "." +:+ ext)) →
  ∃ r, find_actual_file fs' info base exts = Success r.
Proof.
  intros Hin Hsome. induction exts as [|e exts IH]; [ by apply elem_of_nil in Hin | ].
  simpl. destruct (fs' !! (base +:+ "." +:+ e)) eqn:He.
  - unfold success_envelope. eauto.
  - apply IH. apply elem_of_cons in Hin as [-> | Hin]; [ | done ].
    rewrite He in Hsome. by destruct Hsome.
Qed.

Lemma download_raised msg (fs' : gmap string Z) :
  ydl (download_opts download_path quality format_type download_type) url fs
  = (Raised msg, fs') →
  download download_path ydl fs url quality format_type download_type
  = (Failure (if str_in "unavailable" (lower msg)
              then quality_unavailable_msg else msg), fs').
Proof.
  intros Hrun. unfold download. rewrite Hrun.
  by destruct (str_in _ _).
Qed.

Lemma unavailable_test msg :
  str_in "unavailable" (lower msg) = true ↔ contains_ci msg "unavailable".
Proof. by apply str_in_lower. Qed.

(** C5. When the service returns, [download] checks the predicted file
    name, with its extension replaced by [format_type] for an audio
    download: an existing non-empty file gives the success envelope, an
    existing empty file the failure "Downloaded file is empty. Try a
    different quality.", and a missing file starts the search over the
    same base path with the extensions mp4, webm, mkv, mp3, m4a, wav, jpg,
    png, webp in this order, the first existing candidate being returned
    as a success and "Could not find downloaded file." when there is
    none. A lone clip.mkv beside a predicted clip.mp4 is found. *)
Theorem download_normalises_result info filename (fs' : gmap string Z) :
  ydl (download_opts download_path quality format_type download_type) url fs
  = (Extracted info filename, fs') →
  (download_type = "audio" →
   expected_path download_type format_type filename
   = (splitext filename).1 +:+ "." +:+ format_type) ∧
  (download_type ≠ "audio" →
   expected_path download_type format_type filename = filename) ∧
  (∀ dir stem ext,
     download_type = "audio" →
     filename = dir +:+ stem +:+ "." +:+ ext →
     file_name_parts dir stem ext →
     expected_path download_type format_type filename
     = dir +:+ stem +:+ "." +:+ format_type) ∧
  (∀ size,
     fs' !! expected_path download_type format_type filename = Some size →
     size ≠ 0 →
     download download_path ydl fs url quality format_type download_type
     = (success_envelope info
          (expected_path download_type format_type filename) size, fs')) ∧
  (fs' !! expected_path download_type format_type filename = Some 0 →
   download download_path ydl fs url quality format_type download_type
   = (Failure empty_file_msg, fs')) ∧
  (fs' !! expected_path download_type format_type filename = None →
   ∀ base,
     base = (splitext (expected_path download_type format_type filename)).1 →
     (∀ (tried rest : list string) ext size,
        fallback_extensions = (tried ++ ext :: rest)%list →
        (∀ e, e ∈ tried → fs' !! (base +:+ "." +:+ e) = None) →
        fs' !! (base +:+ "." +:+ ext) = Some size →
        download download_path ydl fs url quality format_type download_type
        = (success_envelope info (base +:+ "." +:+ ext) size, fs')) ∧
     ((∀ e, e ∈ fallback_extensions → fs' !! (base +:+ "." +:+ e) = None) →
      download download_path ydl fs url quality format_type download_type
      = (Failure not_found_msg, fs'))) ∧
  fallback_extensions
  = ["mp4"; "webm"; "mkv"; "mp3"; "m4a"; "wav"; "jpg"; "png"; "webp"] ∧
  empty_file_msg = "Downloaded file is empty. Try a different quality." ∧
  not_found_msg = "Could not find downloaded file." ∧
  (download "downloads"
     (ydl_writing clip_info "downloads/clip.mp4" {[ "downloads/clip.mkv" := 10 ]})
     ∅ "https://example.com/v" "highest" "mp4" "video").1
  = Success {| dr_title := Some "clip"; dr_filename := "clip.mkv";
               dr_filepath := "downloads/clip.mkv";
               dr_platform := Some "Youtube"; dr_filesize := 10;
               dr_filesize_readable := "10.0 B" |}.
Proof.
  intros Hrun. unfold download. rewrite Hrun.
  split_and!; try reflexivity.
  - intros ->. reflexivity.
  - intros Hne%String.eqb_neq. unfold expected_path. by rewrite Hne.
  - intros dir stem ext -> -> (Hdir & Hstem & Hnondot & Hext & Hext').
    unfold expected_path. rewrite String.eqb_refl, splitext_stem_ext by done.
    simpl. by rewrite str_app_assoc.
  - intros size -> Hsize. by rewrite (proj2 (Z.eqb_neq size 0) Hsize).
  - by intros ->.
  - intros -> base ->. split.
    + intros tried rest ext size -> Htried Hext.
      by rewrite (find_actual_file_first _ _ _ _ _ _ _ Htried Hext).
    + intros Hnone. by rewrite (find_actual_file_none _ _ _ _ Hnone).
Qed.

(** C6, as the code has it. An error whose message contains "Requested
    format is not available" gives a failure envelope whose error is the
    replacement text exactly when the message also contains "unavailable"
    up to case, and the raw message otherwise. *)
Theorem download_requested_format msg (fs' : gmap string Z) :
  ydl (download_opts download_path quality format_type download_type) url fs
  = (Raised msg, fs') →
  str_in "Requested format is not available" msg = true →
  ∃ e, download download_path ydl fs url quality format_type download_type
       = (Failure e, fs')
       ∧ (e = quality_unavailable_msg ↔ contains_ci msg "unavailable")
       ∧ (¬ contains_ci msg "unavailable" → e = msg).
Proof.
  intros Hrun Hreq. rewrite (download_raised _ _ Hrun).
  pose proof (unavailable_test msg) as Htest.
  destruct (str_in "unavailable" (lower msg)).
  - assert (contains_ci msg "unavailable") as Hc by by apply Htest.
    exists quality_unavailable_msg. split_and!; [ done | done | ].
    intros Hn. by destruct Hn.
  - assert (¬ contains_ci msg "unavailable") as Hn
      by (intros Hc%Htest; discriminate).
    exists msg. split_and!; [ done | | done ].
    split; [ | done ]. intros ->. by vm_compute in Hreq.
Qed.

(** C7. Every exception of the service is caught by [download] and
    turned into a failure envelope: whether the message contains
    "unavailable" up to case decides the error, which is the replacement
    text "This quality is not available. Please try a lower quality." if
    it does and the raw message otherwise; nothing propagates, the
    result is always an envelope. For every raw message other than the
    replacement text, the error is that text if and only if the message
    contains "unavailable". *)
Theorem download_catches_exception msg (fs' : gmap string Z) :
  ydl (download_opts download_path quality format_type download_type) url fs
  = (Raised msg, fs') →
  ∃ e, download download_path ydl fs url quality format_type download_type
       = (Failure e, fs')
       ∧ (contains_ci msg "unavailable" ∨ ¬ contains_ci msg "unavailable")
       ∧ (contains_ci msg "unavailable" → e = quality_unavailable_msg)
       ∧ (¬ contains_ci msg "unavailable" → e = msg)
       ∧ (msg ≠ quality_unavailable_msg →
          (e = quality_unavailable_msg ↔ contains_ci msg "unavailable")).
Proof.
  intros Hrun. rewrite (download_raised _ _ Hrun).
  pose proof (unavailable_test msg) as Htest.
  destruct (str_in "unavailable" (lower msg)).
  - assert (contains_ci msg "unavailable") as Hc by by apply Htest.
    exists quality_unavailable_msg.
    split_and!; [ done | by left | done | | done ].
    intros Hn. by destruct Hn.
  - assert (¬ contains_ci msg "unavailable") as Hn
      by (intros Hc%Htest; discriminate).
    exists msg. split_and!; [ done | by right | done | done | ].
    intros Hne. split; [ done | done ].
Qed.

(** C10, as the code has it. The empty-file check is made on the expected
    path only: when that path is missing, any existing candidate makes
    the result a success, and a first existing candidate of size zero is
    returned as a success envelope with file size 0. *)
Theorem fallback_skips_empty_check info filename (fs' : gmap string Z) :
  ydl (download_opts download_path quality format_type download_type) url fs
  = (Extracted info filename, fs') →
  fs' !! expected_path download_type format_type filename = None →
  ∀ base,
    base = (splitext (expected_path download_type format_type filename)).1 →
    (∀ ext, ext ∈ fallback_extensions →
            is_Some (fs' !! (base +:+ "." +:+ ext)) →
            ∃ r, download download_path ydl fs url quality format_type
                   download_type = (Success r, fs')) ∧
    (∀ (tried rest : list string) ext,
       fallback_extensions = (tried ++ ext :: rest)%list →
       (∀ e, e ∈ tried → fs' !! (base +:+ "." +:+ e) = None) →
       fs' !! (base +:+ "." +:+ ext) = Some 0 →
       ∃ r, download download_path ydl fs url quality format_type
              download_type = (Success r, fs')
            ∧ dr_filesize r = 0
            ∧ dr_filepath r = base +:+ "." +:+ ext).
Proof.
  intros Hrun Hmissing base ->. unfold download. rewrite Hrun, Hmissing.
  split.
  - intros ext Hin Hsome.
    destruct (find_actual_file_found fs' info _ _ _ Hin Hsome) as [r ->].
    by exists r.
  - intros tried rest ext -> Htried Hext.
    rewrite (find_actual_file_first _ _ _ _ _ _ _ Htried Hext).
    unfold success_envelope. by eexists.
Qed.

End Download.

Section DownloadRuns.

Lemma download_normalises_result_witness :
  download "downloads"
    (ydl_writing clip_info "downloads/clip.mp4" {[ "downloads/clip.mkv" := 10 ]})
    ∅ "https://example.com/v" "highest" "mp4" "video"
  = (success_envelope clip_info "downloads/clip.mkv" 10,
     {[ "downloads/clip.mkv" := 10 ]} ∪ ∅).
Proof.
  destruct (download_normalises_result "downloads"
              (ydl_writing clip_info "downloads/clip.mp4"
                 {[ "downloads/clip.mkv" := 10 ]})
              ∅ "https://example.com/v" "highest" "mp4" "video"
              clip_info "downloads/clip.mp4"
              ({[ "downloads/clip.mkv" := 10 ]} ∪ ∅) eq_refl)
    as (_ & _ & _ & _ & _ & Hfallback & _).
  destruct (Hfallback eq_refl "downloads/clip" eq_refl) as [Hfirst _].
  apply (Hfirst ["mp4"; "webm"] ["mp3"; "m4a"; "wav"; "jpg"; "png"; "webp"]
           "mkv" 10 eq_refl); [ | reflexivity ].
  intros e He.
  apply elem_of_cons in He as [-> | He]; [ reflexivity | ].
  apply elem_of_cons in He as [-> | He]; [ reflexivity | ].
  by apply elem_of_nil in He.
Defined.

(** An audio download whose predicted name is song.webm and whose
    transcoded file song.mp3 holds 3355443 bytes. *)
Lemma download_audio_example :
  (download "downloads"
     (ydl_writing clip_info "downloads/song.webm"
        {[ "downloads/song.mp3" := 3355443 ]})
     ∅ "https://example.com/a" "highest" "mp3" "audio").1
  = Success {| dr_title := Some "clip"; dr_filename := "song.mp3";
               dr_filepath := "downloads/song.mp3";
               dr_platform := Some "Youtube"; dr_filesize := 3355443;
               dr_filesize_readable := "3.2 MB" |}.
Proof. reflexivity. Qed.

(** The message of scenario 5 does not contain "unavailable": it is
    surfaced as it is. *)
Lemma requested_format_message_surfaced :
  str_in "Requested format is not available"
         "Requested format is not available" = true
  ∧ (download "downloads" (ydl_raising "Requested format is not available")
       ∅ "https://example.com/v" "8k" "mp4" "video").1
    = Failure "Requested format is not available"
  ∧ (download "downloads" (ydl_raising "Requested format is not available")
       ∅ "https://example.com/v" "8k" "mp4" "video").1
    ≠ Failure quality_unavailable_msg.
Proof. split_and!; [ reflexivity | reflexivity | discriminate ]. Qed.

Lemma download_requested_format_witness :
  ∃ e, download "downloads"
         (ydl_raising "Requested format is not available")
         ∅ "https://example.com/v" "8k" "mp4" "video"
       = (Failure e, ∅)
       ∧ (e = quality_unavailable_msg
          ↔ contains_ci "Requested format is not available" "unavailable")
       ∧ (¬ contains_ci "Requested format is not available" "unavailable"
          → e = "Requested format is not available").
Proof.
  apply (download_requested_format "downloads"
           (ydl_raising "Requested format is not available")
           ∅ "https://example.com/v" "8k" "mp4" "video"
           "Requested format is not available" ∅);
    reflexivity.
Defined.

Lemma download_catches_exception_witness :
  ∃ e, download "downloads" (ydl_raising "Video UNAVAILABLE in your country")
         ∅ "https://example.com/v" "8k" "mp4" "video"
       = (Failure e, ∅)
       ∧ (contains_ci "Video UNAVAILABLE in your country" "unavailable"
          ∨ ¬ contains_ci "Video UNAVAILABLE in your country" "unavailable")
       ∧ (contains_ci "Video UNAVAILABLE in your country" "unavailable"
          → e = quality_unavailable_msg)
       ∧ (¬ contains_ci "Video UNAVAILABLE in your country" "unavailable"
          → e = "Video UNAVAILABLE in your country")
       ∧ ("Video UNAVAILABLE in your country" ≠ quality_unavailable_msg →
          (e = quality_unavailable_msg
           ↔ contains_ci "Video UNAVAILABLE in your country" "unavailable")).
Proof.
  apply (download_catches_exception "downloads"
           (ydl_raising "Video UNAVAILABLE in your country")
           ∅ "https://example.com/v" "8k" "mp4" "video"
           "Video UNAVAILABLE in your country" ∅).
  reflexivity.
Defined.

(** The two branches of the handler on concrete messages: one that
    contains "unavailable" in another case, one that does not. *)
Lemma download_exception_runs :
  (download "downloads" (ydl_raising "Video UNAVAILABLE in your country")
     ∅ "https://example.com/v" "8k" "mp4" "video").1
  = Failure "This quality is not available. Please try a lower quality."
  ∧ (download "downloads" (ydl_raising "Unsupported URL")
       ∅ "https://example.com/v" "8k" "mp4" "video").1
    = Failure "Unsupported URL".
Proof. split; reflexivity. Qed.

(** Two candidates exist, the later one empty: the result is a success
    for the earlier one, with its size and not 0. *)
Lemma earlier_candidate_wins :
  ({[ "downloads/clip.mp4" := 5; "downloads/clip.mkv" := 0 ]}
     : gmap string Z) !! "downloads/clip.webm" = None
  ∧ ({[ "downloads/clip.mp4" := 5; "downloads/clip.mkv" := 0 ]}
       : gmap string Z) !! "downloads/clip.mkv" = Some 0
  ∧ "mkv" ∈ fallback_extensions
  ∧ ∃ r, (download "downloads"
            (ydl_writing clip_info "downloads/clip.webm"
               {[ "downloads/clip.mp4" := 5; "downloads/clip.mkv" := 0 ]})
            ∅ "https://example.com/v" "highest" "webm" "video").1
         = Success r
         ∧ dr_filesize r = 5 ∧ dr_filesize r ≠ 0.
Proof.
  split_and!; [ reflexivity | reflexivity | | ].
  - unfold fallback_extensions. set_solver.
  - eexists. split; [ reflexivity | ]. split; [ reflexivity | discriminate ].
Qed.

Lemma fallback_skips_empty_check_witness :
  ∃ r, download "downloads"
         (ydl_writing clip_info "downloads/clip.mp4"
            {[ "downloads/clip.mkv" := 0 ]})
         ∅ "https://example.com/v" "highest" "mp4" "video"
       = (Success r, {[ "downloads/clip.mkv" := 0 ]} ∪ ∅)
       ∧ dr_filesize r = 0
       ∧ dr_filepath r = "downloads/clip" +:+ "." +:+ "mkv".
Proof.
  assert (({[ "downloads/clip.mkv" := 0 ]} ∪ ∅ : gmap string Z)
            !! expected_path "video" "mp4" "downloads/clip.mp4" = None)
    as Hmissing by (vm_compute; reflexivity).
  destruct (fallback_skips_empty_check "downloads"
              (ydl_writing clip_info "downloads/clip.mp4"
                 {[ "downloads/clip.mkv" := 0 ]})
              ∅ "https://example.com/v" "highest" "mp4" "video"
              clip_info "downloads/clip.mp4"
              ({[ "downloads/clip.mkv" := 0 ]} ∪ ∅) eq_refl Hmissing
              "downloads/clip" eq_refl) as [_ Hfirst].
  apply (Hfirst ["mp4"; "webm"] ["mp3"; "m4a"; "wav"; "jpg"; "png"; "webp"]
           "mkv" eq_refl); [ | reflexivity ].
  intros e He.
  apply elem_of_cons in He as [-> | He]; [ reflexivity | ].
  apply elem_of_cons in He as [-> | He]; [ reflexivity | ].
  by apply elem_of_nil in He.
Defined.

End DownloadRuns.

Section FormatFilesize.

Lemma round_half_even_near (a b : Z) :
  0 < b → 2 * Z.abs (a - round_half_even a b * b) ≤ b.
Proof.
  intros Hb. unfold round_half_even.
  pose proof (Z.div_mod a b ltac:(lia)) as Hdm.
  pose proof (Z.mod_pos_bound a b Hb) as Hr.
  destruct (Z.compare_spec (2 * (a mod b)) b); [ destruct (Z.even _) | | ]; nia.
Qed.

Lemma round_half_even_floor (a b : Z) :
  a / b ≤ round_half_even a b ≤ a / b + 1.
Proof.
  unfold round_half_even.
  destruct (Z.compare_spec (2 * (a mod b)) b); [ destruct (Z.even _) | | ]; lia.
Qed.

(** Below [2^53] every integer is a float. *)
Lemma float_of_int_exact (size : Z) :
  0 ≤ size → size < 2 ^ 53 → float_of_int size = inject_Z size.
Proof.
  intros H0 Hlt. unfold float_of_int. rewrite Z.abs_eq by done.
  destruct (Z.ltb_spec (Z.log2 size) 53) as [Hk | Hk]; [ done | ].
  exfalso. destruct (Z.eq_dec size 0) as [-> | Hne]; [ by vm_compute in Hk | ].
  apply Z.log2_lt_pow2 in Hlt; lia.
Qed.

Lemma float_of_int_shape (size : Z) :
  0 ≤ size →
  ∃ m, float_of_int size = inject_Z m ∧ 0 ≤ m ∧ (size < 1024 ↔ m < 1024).
Proof.
  intros H0. unfold float_of_int. rewrite Z.abs_eq by done.
  destruct (Z.ltb_spec (Z.log2 size) 53) as [Hk | Hk].
  { exists size. done. }
  eexists. split; [ reflexivity | ].
  assert (0 < size) as Hpos.
  { destruct (Z.eq_dec size 0) as [-> | Hne]; [ by vm_compute in Hk | lia ]. }
  rewrite (Z.sgn_pos _ Hpos), Z.mul_1_l.
  set (k := Z.log2 size) in *. set (u := 2 ^ (k - 52)).
  assert (0 < u) as Hu by (apply Z.pow_pos_nonneg; lia).
  assert (2 ^ 52 * u ≤ size) as Hlow.
  { unfold u. rewrite <- Z.pow_add_r by lia. replace (52 + (k - 52)) with k by lia.
    by apply Z.log2_spec. }
  assert (2 ^ 52 ≤ size / u) as Hdiv by (apply Z.div_le_lower_bound; lia).
  pose proof (round_half_even_floor size u) as [Hfloor _].
  assert (2 ^ 52 ≤ round_half_even size u * u) as Hm by nia.
  assert (2 ^ 53 ≤ size) as Hbig.
  { destruct (Z.lt_ge_cases size (2 ^ 53)) as [Hlt | Hge]; [ | done ].
    apply Z.log2_lt_pow2 in Hlt; lia. }
  change (2 ^ 52) with 4503599627370496 in *.
  change (2 ^ 53) with 9007199254740992 in *.
  split_and!; lia.
Qed.

Lemma tenth_is_nearest (a : Z) (d : positive) (t : Z) :
  2 * Z.abs (10 * a - t * Z.pos d) ≤ Z.pos d →
  (Qabs (10 * (a # d) - inject_Z t) <= 1 # 2)%Q.
Proof.
  intros H. apply Qabs_Qle_condition.
  unfold Qle, Qminus, Qplus, Qmult, Qopp, inject_Z. simpl.
  rewrite ?Pos.mul_1_l, ?Pos.mul_1_r.
  replace (10 * a * 1 + - t * Z.pos d) with (10 * a - t * Z.pos d) by ring.
  generalize dependent (10 * a - t * Z.pos d). intros x Hx. lia.
Qed.

(** [f"{size:.1f}"] names a tenth nearest to the value it renders. *)
Lemma format_1f_spec (v : PyNum) :
  (0 <= float_value v)%Q → one_decimal_of (float_value v) (format_1f v).
Proof.
  unfold format_1f. destruct (float_value v) as [a d]. intros Hq.
  assert (0 ≤ a) as Ha by (unfold Qle in Hq; simpl in Hq; lia).
  cbn [Qnum Qden]. rewrite (proj2 (Z.ltb_ge a 0) Ha), Z.abs_eq by done.
  set (t := round_half_even (10 * a) (Z.pos d)).
  assert (0 ≤ t) as Ht.
  { pose proof (round_half_even_floor (10 * a) (Z.pos d)) as [Hfloor _].
    pose proof (Z.div_pos (10 * a) (Z.pos d) ltac:(lia) ltac:(lia)). lia. }
  pose proof (Z.mod_pos_bound t 10 ltac:(lia)) as Hdigit.
  exists t. split_and!; [ done | done | lia | lia | ].
  - apply tenth_is_nearest.
    pose proof (round_half_even_near (10 * a) (Z.pos d) ltac:(lia)). done.
Qed.

Lemma float_value_div (v : PyNum) :
  float_value (py_div_1024 v) = (float_value v / 1024)%Q.
Proof. by destruct v. Qed.

Lemma py_lt_1024_float (q : Q) :
  py_lt_1024 (PyFloat q) = true ↔ (q < 1024)%Q.
Proof.
  simpl. rewrite negb_true_iff. split.
  - intros H. apply Qnot_le_lt. intros Hle%Qle_bool_iff. congruence.
  - intros H. destruct (Qle_bool 1024 q) eqn:Hle; [ | done ].
    apply Qle_bool_iff in Hle. by apply Qlt_not_le in H.
Qed.

(** The loop: it stops at the first unit whose value is below 1024, or at
    the unit after the last. *)
Lemma format_units_spec (units : list string) (v : PyNum) :
  (0 <= float_value v)%Q →
  (py_lt_1024 v = true ↔ (float_value v < 1024)%Q) →
  ∃ (k : nat) (unit s : string),
    (units ++ ["TB"])%list !! k = Some unit ∧
    (∀ j, (j < k)%nat →
          (1024 <= Nat.iter j (λ q, q / 1024) (float_value v))%Q) ∧
    (k = length units
     ∨ (Nat.iter k (λ q, q / 1024) (float_value v) < 1024)%Q) ∧
    one_decimal_of (Nat.iter k (λ q, q / 1024)%Q (float_value v)) s ∧
    format_units units v = s +:+ " " +:+ unit.
Proof.
  revert v. induction units as [|u units IH]; intros v Hpos Hcmp.
  - exists 0%nat, "TB", (format_1f v). split_and!; try done.
    + intros j Hj. lia.
    + by left.
    + by apply format_1f_spec.
  - cbn [format_units]. destruct (py_lt_1024 v) eqn:Hlt.
    + exists 0%nat, u, (format_1f v). split_and!; try done.
      * intros j Hj. lia.
      * right. by apply Hcmp.
      * by apply format_1f_spec.
    + assert (1024 <= float_value v)%Q as Hge.
      { apply Qnot_lt_le. intros H%Hcmp. congruence. }
      destruct (IH (py_div_1024 v)) as (k & unit & s & Hk & Hall & Hend & Hs & Hf).
      { rewrite float_value_div. apply Qle_shift_div_l; [ done | lra ]. }
      { destruct v; apply py_lt_1024_float. }
      rewrite float_value_div in *.
      exists (S k), unit, s. split_and!; try done.
      * intros [|j] Hj; [ done | ].
        rewrite Nat.iter_succ_r. apply Hall. lia.
      * destruct Hend as [-> | Hend]; [ by left | right ].
        by rewrite Nat.iter_succ_r.
      * by rewrite Nat.iter_succ_r.
Qed.

(** Below [2^53] the value after [k] divisions is the exact quotient of
    the size by [1024^k]. *)
Lemma divided_exact (size : Z) (k : nat) :
  0 ≤ size → size < 2 ^ 53 →
  (divided size k == inject_Z size / inject_Z (1024 ^ Z.of_nat k))%Q.
Proof.
  intros H0 Hlt. unfold divided. rewrite float_of_int_exact by done.
  induction k as [|k IH].
  - change (inject_Z size == inject_Z size / inject_Z 1)%Q.
    change (inject_Z 1) with 1%Q. field.
  - rewrite Nat.iter_succ, IH, Nat2Z.inj_succ, Z.pow_succ_r by lia.
    rewrite inject_Z_mult.
    assert (¬ inject_Z (1024 ^ Z.of_nat k) == 0)%Q as Hne.
    { unfold Qeq. simpl. pose proof (Z.pow_pos_nonneg 1024 (Z.of_nat k)). lia. }
    change (inject_Z 1024) with 1024%Q. field. done.
Qed.

(** C8. For a size that is not negative, [_format_filesize] divides by
    1024 as long as the value is at least 1024, walking the units B, KB,
    MB, GB and stopping at TB, and renders the value reached with one
    decimal place and the unit; below [2^53] the value after [k] divisions
    is the size over [1024^k]. 1023 gives "1023.0 B", 1024 gives "1.0 KB", and five
    times 1024 squared gives "5.0 MB". *)
Theorem format_filesize_spec (size : Z) :
  0 ≤ size →
  (∃ (k : nat) (unit s : string),
     size_units !! k = Some unit ∧
     (∀ j, (j < k)%nat → (1024 <= divided size j)%Q) ∧
     (k = 4%nat ∨ (divided size k < 1024)%Q) ∧
     one_decimal_of (divided size k) s ∧
     _format_filesize size = s +:+ " " +:+ unit) ∧
  (size < 2 ^ 53 →
   ∀ k, (divided size k == inject_Z size / inject_Z (1024 ^ Z.of_nat k))%Q) ∧
  _format_filesize 1023 = "1023.0 B" ∧
  _format_filesize 1024 = "1.0 KB" ∧
  _format_filesize (5 * 1024 * 1024) = "5.0 MB".
Proof.
  intros H0. split_and!; try reflexivity.
  - destruct (float_of_int_shape size H0) as (m & Hm & Hm0 & Hsmall).
    apply (format_units_spec ["B"; "KB"; "MB"; "GB"] (PyInt size)).
    + simpl. rewrite Hm. unfold Qle. simpl. lia.
    + simpl. rewrite Hm, Z.ltb_lt, Hsmall. unfold Qlt. simpl. lia.
  - intros Hlt k. by apply divided_exact.
Qed.

Lemma format_filesize_spec_witness :
  ∃ (k : nat) (unit s : string),
    size_units !! k = Some unit ∧
    (∀ j, (j < k)%nat → (1024 <= divided 3355443 j)%Q) ∧
    (k = 4%nat ∨ (divided 3355443 k < 1024)%Q) ∧
    one_decimal_of (divided 3355443 k) s ∧
    _format_filesize 3355443 = s +:+ " " +:+ unit.
Proof.
  apply (format_filesize_spec 3355443). lia.
Defined.

Lemma format_filesize_examples :
  _format_filesize 0 = "0.0 B" ∧
  _format_filesize 1280 = "1.2 KB" ∧
  _format_filesize 3355443 = "3.2 MB" ∧
  _format_filesize (1024 ^ 4) = "1.0 TB" ∧
  _format_filesize (1024 ^ 5) = "1024.0 TB".
Proof. repeat split; reflexivity. Qed.

End FormatFilesize.

Section FormatCatalog.

Lemma detect_content_type_cases (info : MediaDescriptor) :
  _detect_content_type info = "photo" ∨ _detect_content_type info = "audio"
  ∨ _detect_content_type info = "video".
Proof.
  unfold _detect_content_type.
  destruct (bool_decide _); [ by left | ].
  destruct (existsb _ photo_url_patterns); [ by left | ].
  destruct (has_codec fv_vcodec _), (has_codec fv_acodec _);
    destruct (match md_duration info with None => true | Some d => _ end);
    simpl; auto.
Qed.

(** The catalog is keyed by the content type: photo and audio get one
    [formats] menu, every other content type string the two menus of a
    video and the type "video". *)
Theorem available_formats_shape (info : MediaDescriptor)
    (content_type : string) :
  (content_type = "photo" ∨ content_type = "audio" →
   _get_available_formats info content_type !! "type"
   = Some (CType content_type)
   ∧ dom (_get_available_formats info content_type)
     = ({[ "type"; "formats" ]} : gset string)) ∧
  (content_type ≠ "photo" → content_type ≠ "audio" →
   _get_available_formats info content_type !! "type" = Some (CType "video")
   ∧ dom (_get_available_formats info content_type)
     = ({[ "type"; "video_formats"; "audio_formats" ]} : gset string)).
Proof.
  split.
  - intros [-> | ->]; split; first [ reflexivity | by vm_compute ].
  - intros Hp%String.eqb_neq Ha%String.eqb_neq.
    unfold _get_available_formats. rewrite Hp, Ha.
    split; first [ reflexivity | by vm_compute ].
Qed.

Lemma available_formats_shape_witness :
  _get_available_formats clip_info "gif" !! "type" = Some (CType "video")
  ∧ dom (_get_available_formats clip_info "gif")
    = ({[ "type"; "video_formats"; "audio_formats" ]} : gset string).
Proof.
  destruct (available_formats_shape clip_info "gif") as [_ H].
  apply H; discriminate.
Defined.

(** The catalog built for the detected content type carries that very
    type. *)
Theorem available_formats_of_detected (info : MediaDescriptor) :
  _get_available_formats info (_detect_content_type info) !! "type"
  = Some (CType (_detect_content_type info)).
Proof.
  destruct (detect_content_type_cases info) as [-> | [-> | ->]]; reflexivity.
Qed.

(** Every entry of every menu is flagged available, and its value is one
    of the extensions the download's fallback search probes. *)
Theorem available_formats_entries (info : MediaDescriptor)
    (content_type key : string) (menu : list FormatOption) (o : FormatOption) :
  _get_available_formats info content_type !! key = Some (CFormats menu) →
  o ∈ menu →
  fo_available o = true ∧ fo_value o ∈ fallback_extensions.
Proof.
  unfold _get_available_formats. intros Hkey Ho.
  destruct (content_type =? "photo")%string;
    [ | destruct (content_type =? "audio")%string ];
    apply elem_of_list_to_map_2 in Hkey;
    repeat (apply elem_of_cons in Hkey as [Hkey | Hkey];
            [ try discriminate; injection Hkey as -> -> | ]);
    try (by apply elem_of_nil in Hkey);
    repeat (apply elem_of_cons in Ho as [-> | Ho];
            [ split; [ reflexivity | unfold fallback_extensions; in_list ] | ]);
    by apply elem_of_nil in Ho.
Qed.

Lemma available_formats_entries_witness :
  fo_available (mkFormatOption "mkv" "MKV" true) = true
  ∧ fo_value (mkFormatOption "mkv" "MKV" true) ∈ fallback_extensions.
Proof.
  apply (available_formats_entries clip_info "video" "video_formats"
           [ mkFormatOption "mp4" "MP4 (Recommended)" true;
             mkFormatOption "webm" "WebM" true;
             mkFormatOption "mkv" "MKV" true ]).
  - reflexivity.
  - in_list.
Defined.

(** The audio values offered beside a video are those offered for an
    audio resource, in the same order. *)
Theorem available_formats_audio_values (info : MediaDescriptor)
    (content_type : string) :
  content_type ≠ "photo" → content_type ≠ "audio" →
  ∃ for_audio beside_video,
    _get_available_formats info "audio" !! "formats"
    = Some (CFormats for_audio)
    ∧ _get_available_formats info content_type !! "audio_formats"
      = Some (CFormats beside_video)
    ∧ fo_value <$> for_audio = fo_value <$> beside_video
    ∧ fo_value <$> for_audio = ["mp3"; "m4a"; "wav"].
Proof.
  intros Hp%String.eqb_neq Ha%String.eqb_neq.
  unfold _get_available_formats at 2. rewrite Hp, Ha.
  eexists _, _. split_and!; reflexivity.
Qed.

Lemma available_formats_audio_values_witness :
  ∃ for_audio beside_video,
    _get_available_formats clip_info "audio" !! "formats"
    = Some (CFormats for_audio)
    ∧ _get_available_formats clip_info "video" !! "audio_formats"
      = Some (CFormats beside_video)
    ∧ fo_value <$> for_audio = fo_value <$> beside_video
    ∧ fo_value <$> for_audio = ["mp3"; "m4a"; "wav"].
Proof.
  apply (available_formats_audio_values clip_info "video"); discriminate.
Defined.

End FormatCatalog.

Section Probe.

Context (ydl : gmap string OptValue → string → string + ProbeInfo).
Context (url : string).

Lemma str_take_length (n : nat) (s : string) :
  String.length (str_take n s) = Nat.min n (String.length s).
Proof.
  revert s. induction n as [|n IH]; intros [|a s]; simpl; try done.
  by rewrite IH.
Qed.

Lemma str_take_all (n : nat) (s : string) :
  (String.length s ≤ n)%nat → str_take n s = s.
Proof.
  revert s. induction n as [|n IH]; intros [|a s] Hlen; simpl in *;
    try done; try lia.
  rewrite IH; [ done | lia ].
Qed.

Lemma get_video_info_success (r : InfoResponse) :
  get_video_info ydl url = InfoSuccess r →
  ∃ info description,
    ydl probe_opts url = inr info
    ∧ field_get_default (pi_description info) "" = Some description
    ∧ ir_description r = str_take 200 description
    ∧ ir_content_type r = _detect_content_type (descriptor_of info)
    ∧ ir_available_qualities r = _get_available_qualities (descriptor_of info)
    ∧ ir_available_formats r
      = _get_available_formats (descriptor_of info) (ir_content_type r).
Proof.
  unfold get_video_info. destruct (ydl probe_opts url) as [msg | info];
    [ discriminate | ].
  destruct (field_get_default (pi_description info) "") as [d|] eqn:Hd;
    [ | discriminate ].
  intros [= <-]. by exists info, d.
Qed.

(** The probe ends in one of three ways: an exception of the service is
    returned with its raw message (no replacement text, unlike
    [download]); a description bound to [None] fails the whole probe with
    the message of the [TypeError]; everything else is a success. *)
Theorem get_video_info_outcomes :
  (∀ msg, ydl probe_opts url = inl msg →
          get_video_info ydl url = InfoFailure msg) ∧
  (∀ info, ydl probe_opts url = inr info → pi_description info = Null →
           get_video_info ydl url = InfoFailure not_subscriptable_msg) ∧
  (∀ info, ydl probe_opts url = inr info → pi_description info ≠ Null →
           ∃ r, get_video_info ydl url = InfoSuccess r) ∧
  (∀ r, get_video_info ydl url = InfoSuccess r →
        ∃ info, ydl probe_opts url = inr info ∧ pi_description info ≠ Null).
Proof.
  unfold get_video_info. split_and!.
  - by intros msg ->.
  - by intros info -> ->.
  - intros info -> Hd. destruct (pi_description info); simpl; eauto. done.
  - intros r. destruct (ydl probe_opts url) as [msg | info]; [ discriminate | ].
    intros H. exists info. split; [ done | ]. intros Hnull.
    rewrite Hnull in H. discriminate.
Qed.

(** The description of a success envelope is the first 200 characters of
    the description read, the empty string for an absent key: never
    longer than 200, and unchanged when it already fits. *)
Theorem get_video_info_description (r : InfoResponse) :
  get_video_info ydl url = InfoSuccess r →
  ∃ info description rest,
    ydl probe_opts url = inr info
    ∧ field_get_default (pi_description info) "" = Some description
    ∧ description = ir_description r +:+ rest
    ∧ (String.length (ir_description r) ≤ 200)%nat
    ∧ ((String.length description ≤ 200)%nat → ir_description r = description)
    ∧ ((200 < String.length description)%nat →
       String.length (ir_description r) = 200%nat).
Proof.
  intros (info & d & Hrun & Hd & Hdesc & _)%get_video_info_success.
  exists info, d, (str_drop 200 d). rewrite Hdesc.
  split_and!; try done.
  - by rewrite str_take_drop.
  - rewrite str_take_length. lia.
  - apply str_take_all.
  - rewrite str_take_length. lia.
Qed.

(** The parts of a success envelope agree: the content type is one of
    photo, audio and video, the catalog is the one of that type, and the
    qualities are distinct buckets in best-to-worst order. *)
Theorem get_video_info_consistent (r : InfoResponse) :
  get_video_info ydl url = InfoSuccess r →
  (ir_content_type r = "photo" ∨ ir_content_type r = "audio"
   ∨ ir_content_type r = "video") ∧
  ir_available_formats r !! "type" = Some (CType (ir_content_type r)) ∧
  NoDup (qe_value <$> ir_available_qualities r) ∧
  (qe_value <$> ir_available_qualities r) `sublist_of` order ∧
  (ir_content_type r ≠ "video" →
   ir_available_formats r !! "video_formats" = None).
Proof.
  intros (info & d & _ & _ & _ & Hct & Hq & Hf)%get_video_info_success.
  rewrite Hf, Hq, Hct. split_and!.
  - apply detect_content_type_cases.
  - destruct (detect_content_type_cases (descriptor_of info))
      as [-> | [-> | ->]]; reflexivity.
  - rewrite available_qualities_values. apply NoDup_filter, NoDup_order.
  - rewrite available_qualities_values. apply sublist_filter.
  - destruct (detect_content_type_cases (descriptor_of info))
      as [-> | [-> | ->]]; done.
Qed.

End Probe.

Section ProbeRuns.

Lemma get_video_info_description_witness :
  ∃ info description rest,
    ydl_probing (inr clip_probe) probe_opts "https://example.com/watch/1"
    = inr info
    ∧ field_get_default (pi_description info) "" = Some description
    ∧ description = "A short clip." +:+ rest
    ∧ (String.length "A short clip." ≤ 200)%nat
    ∧ ((String.length description ≤ 200)%nat
       → "A short clip." = description)
    ∧ ((200 < String.length description)%nat →
       String.length "A short clip." = 200%nat).
Proof.
  exact (get_video_info_description (ydl_probing (inr clip_probe))
           "https://example.com/watch/1" _ eq_refl).
Defined.

Lemma get_video_info_consistent_witness :
  ∃ r, get_video_info (ydl_probing (inr clip_probe))
         "https://example.com/watch/1" = InfoSuccess r
       ∧ ir_content_type r = "video"
       ∧ ir_available_formats r !! "type" = Some (CType (ir_content_type r))
       ∧ qe_value <$> ir_available_qualities r = ["1080p"]
       ∧ NoDup (qe_value <$> ir_available_qualities r).
Proof.
  eexists. split; [ reflexivity | ].
  split; [ reflexivity | ].
  pose proof (get_video_info_consistent (ydl_probing (inr clip_probe))
                "https://example.com/watch/1" _ eq_refl)
    as (_ & Htype & Hnodup & _).
  split; [ exact Htype | ]. split; [ reflexivity | exact Hnodup ].
Defined.

End ProbeRuns.

Section DownloadInvariants.

Context (download_path : string).
Context (ydl : gmap string OptValue → string → gmap string Z
               → ServiceResult * gmap string Z).
Context (fs : gmap string Z).
Context (url quality format_type download_type : string).

Lemma find_actual_file_success (fs' : gmap string Z) (info : MediaDescriptor)
    (base : string) (exts : list string) (r : DownloadResult) :
  find_actual_file fs' info base exts = Success r →
  ∃ ext size, ext ∈ exts
              ∧ fs' !! (base +:+ "." +:+ ext) = Some size
              ∧ Success r = success_envelope info (base +:+ "." +:+ ext) size.
Proof.
  induction exts as [|e exts IH]; simpl; [ discriminate | ].
  destruct (fs' !! (base +:+ "." +:+ e)) as [size|] eqn:He.
  - intros H. exists e, size. split_and!; [ set_solver | done | done ].
  - intros (ext & size & Hin & Hext & Henv)%IH.
    exists ext, size. split_and!; [ set_solver | done | done ].
Qed.

Lemma find_actual_file_failure (fs' : gmap string Z) (info : MediaDescriptor)
    (base : string) (exts : list string) (e : string) :
  find_actual_file fs' info base exts = Failure e →
  e = not_found_msg ∧ ∀ ext, ext ∈ exts → fs' !! (base +:+ "." +:+ ext) = None.
Proof.
  induction exts as [|x exts IH]; simpl.
  - intros [= <-]. split; [ done | ]. intros ext Hin. by apply elem_of_nil in Hin.
  - destruct (fs' !! (base +:+ "." +:+ x)) as [size|] eqn:Hx; [ discriminate | ].
    intros [-> Hall]%IH. split; [ done | ].
    intros ext [-> | Hin]%elem_of_cons; [ done | by apply Hall ].
Qed.

(** A success envelope always names a file that exists in the file system
    the service left, with that file's size; the file is the expected
    path, then not empty, or the base path with one of the fallback
    extensions when the expected path is missing. *)
Theorem download_success_names_file (r : DownloadResult)
    (fs' : gmap string Z) :
  download download_path ydl fs url quality format_type download_type
  = (Success r, fs') →
  ∃ info filename,
    ydl (download_opts download_path quality format_type download_type) url fs
    = (Extracted info filename, fs')
    ∧ fs' !! dr_filepath r = Some (dr_filesize r)
    ∧ dr_filename r = basename (dr_filepath r)
    ∧ dr_filesize_readable r = _format_filesize (dr_filesize r)
    ∧ dr_title r = md_title info
    ∧ dr_platform r = md_extractor_key info
    ∧ ((dr_filepath r = expected_path download_type format_type filename
        ∧ dr_filesize r ≠ 0)
       ∨ (fs' !! expected_path download_type format_type filename = None
          ∧ ∃ ext, ext ∈ fallback_extensions
                   ∧ dr_filepath r
                     = (splitext (expected_path download_type format_type
                                    filename)).1 +:+ "." +:+ ext)).
Proof.
  unfold download.
  destruct (ydl _ url fs) as [[msg | info filename] fs0] eqn:Hrun.
  { destruct (str_in _ _); discriminate. }
  destruct (fs0 !! expected_path download_type format_type filename)
    as [size|] eqn:Hpath.
  - destruct (Z.eqb_spec size 0) as [-> | Hsize]; [ discriminate | ].
    unfold success_envelope. intros [= <- <-].
    exists info, filename. simpl. split_and!; try done. by left.
  - intros [Hfind <-]%pair_equal_spec.
    apply find_actual_file_success in Hfind as (ext & size & Hin & Hext & Henv).
    unfold success_envelope in Henv. injection Henv as ->.
    exists info, filename. simpl. split_and!; try done.
    right. split; [ done | ]. by exists ext.
Qed.

(** A failure has one of three causes and no other: the service raised;
    the expected path exists and is empty; the expected path and every
    fallback candidate are missing. *)
Theorem download_failure_causes (e : string) (fs' : gmap string Z) :
  download download_path ydl fs url quality format_type download_type
  = (Failure e, fs') →
  (∃ msg,
     ydl (download_opts download_path quality format_type download_type) url fs
     = (Raised msg, fs')
     ∧ e = if str_in "unavailable" (lower msg)
           then quality_unavailable_msg else msg) ∨
  (∃ info filename,
     ydl (download_opts download_path quality format_type download_type) url fs
     = (Extracted info filename, fs')
     ∧ ((fs' !! expected_path download_type format_type filename = Some 0
         ∧ e = empty_file_msg)
        ∨ (fs' !! expected_path download_type format_type filename = None
           ∧ e = not_found_msg
           ∧ ∀ ext, ext ∈ fallback_extensions →
                    fs' !! ((splitext (expected_path download_type format_type
                                         filename)).1 +:+ "." +:+ ext)
                    = None))).
Proof.
  unfold download.
  destruct (ydl _ url fs) as [[msg | info filename] fs0] eqn:Hrun.
  { intros H. left. exists msg.
    destruct (str_in _ _); injection H as <- <-; done. }
  destruct (fs0 !! expected_path download_type format_type filename)
    as [size|] eqn:Hpath.
  - destruct (Z.eqb_spec size 0) as [-> | Hsize]; [ | discriminate ].
    intros [= <- <-]. right. exists info, filename. split; [ done | ]. by left.
  - intros [Hfind <-]%pair_equal_spec. right. exists info, filename.
    split; [ done | ]. right.
    apply find_actual_file_failure in Hfind as [-> Hall]. done.
Qed.

End DownloadInvariants.

Section Routes.

(** Without a URL, or with an empty one, both routes answer 400 with
    "URL is required" whatever the service would do, and the download
    route leaves the file system as it is. *)
Theorem routes_require_url (data : gmap string string) :
  data !! "url" = None ∨ data !! "url" = Some "" →
  ∀ ydl_info ydl_download fs,
    get_info ydl_info data = (400, InfoFailure url_required_msg)
    ∧ download_media ydl_download fs data
      = ((400, Failure url_required_msg), fs).
Proof.
  intros Hurl ydl_info ydl_download fs.
  unfold get_info, download_media.
  by destruct Hurl as [-> | ->].
Qed.

Lemma routes_require_url_witness :
  get_info (ydl_probing (inr clip_probe)) {[ "quality" := "4k" ]}
  = (400, InfoFailure url_required_msg)
  ∧ download_media (ydl_raising "boom") ∅ {[ "quality" := "4k" ]}
    = ((400, Failure url_required_msg), ∅).
Proof.
  apply (routes_require_url {[ "quality" := "4k" ]}). by left.
Defined.

(** With a URL the status is 200 whatever the outcome: a service error
    comes back as a failure envelope under status 200, on both routes. *)
Theorem routes_report_errors_with_200 (data : gmap string string)
    (url msg : string) :
  data !! "url" = Some url → url ≠ "" →
  (∀ ydl_info,
     ydl_info probe_opts url = inl msg →
     get_info ydl_info data = (200, InfoFailure msg)) ∧
  (∀ ydl_download fs fs',
     ydl_download
       (download_opts downloader_path
          (default "highest" (data !! "quality"))
          (default "mp4" (data !! "format"))
          (default "video" (data !! "download_type"))) url fs
     = (Raised msg, fs') →
     download_media ydl_download fs data
     = ((200, Failure (if str_in "unavailable" (lower msg)
                       then quality_unavailable_msg else msg)), fs')).
Proof.
  intros Hurl Hne%String.eqb_neq. split.
  - intros ydl_info Hrun. unfold get_info. rewrite Hurl. simpl. rewrite Hne.
    unfold get_video_info. by rewrite Hrun.
  - intros ydl_download fs fs' Hrun. unfold download_media.
    rewrite Hurl. simpl. rewrite Hne.
    by rewrite (download_raised _ _ _ _ _ _ _ _ _ Hrun).
Qed.

Lemma routes_report_errors_with_200_witness :
  get_info (ydl_probing (inl "Unsupported URL"))
    {[ "url" := "https://example.com/x" ]}
  = (200, InfoFailure "Unsupported URL").
Proof.
  destruct (routes_report_errors_with_200
              {[ "url" := "https://example.com/x" ]}
              "https://example.com/x" "Unsupported URL"
              (lookup_singleton_eq _ _))
    as [Hinfo _]; [ discriminate | ].
  apply Hinfo. reflexivity.
Defined.

(** A download request that gives only the URL is served as quality
    "highest", format "mp4", type "video": the service receives the
    unconstrained selector, the mp4 container and the output template
    under the downloads directory, and the answer has status 200. *)
Theorem download_media_defaults (url : string)
    (ydl : gmap string OptValue → string → gmap string Z
           → ServiceResult * gmap string Z)
    (fs : gmap string Z) :
  url ≠ "" →
  download_media ydl fs {[ "url" := url ]}
  = ((200, (download "downloads" ydl fs url "highest" "mp4" "video").1),
     (download "downloads" ydl fs url "highest" "mp4" "video").2)
  ∧ download_opts "downloads" "highest" "mp4" "video" !! "format"
    = Some (OStr "bestvideo+bestaudio/best")
  ∧ download_opts "downloads" "highest" "mp4" "video" !! "merge_output_format"
    = Some (OStr "mp4")
  ∧ download_opts "downloads" "highest" "mp4" "video" !! "outtmpl"
    = Some (OStr "downloads/%(title)s.%(ext)s")
  ∧ download_opts "downloads" "highest" "mp4" "video" !! "restrictfilenames"
    = Some (OBool true).
Proof.
  intros Hne%String.eqb_neq. split_and!; try reflexivity.
  unfold download_media.
  rewrite lookup_singleton_eq.
  rewrite !lookup_singleton_ne by discriminate.
  simpl. rewrite Hne. unfold downloader_path.
  by destruct (download _ _ _ _ _ _ _).
Qed.

Lemma download_media_defaults_witness :
  download_media (ydl_raising "Video unavailable") ∅
    {[ "url" := "https://example.com/x" ]}
  = ((200, Failure quality_unavailable_msg), ∅).
Proof.
  destruct (download_media_defaults "https://example.com/x"
              (ydl_raising "Video unavailable") ∅) as [H _];
    [ discriminate | ].
  rewrite H. reflexivity.
Defined.

End Routes.

Section ContentTypeClasses.

Lemma no_codec_not_present (codec : FormatVariant → option string)
    (info : MediaDescriptor) :
  (∀ f, f ∈ md_formats info → codec f = None ∨ codec f = Some "none") →
  ¬ codec_present codec info.
Proof.
  intros Hnone (f & c & Hin & Hc & Hne).
  destruct (Hnone f Hin) as [H | H]; congruence.
Qed.

(** Each content type has an exact condition. Video: not tagged image,
    no photo pattern in the URL, a video codec, and an audio codec or a
    duration that is neither null nor zero. Audio: not tagged image, no
    photo pattern, an audio codec and no video codec. Photo: all the
    rest. *)
Theorem detect_content_type_classes (info : MediaDescriptor) :
  (_detect_content_type info = "video"
   ↔ ¬ declared_image info ∧ ¬ url_is_photo info
     ∧ codec_present fv_vcodec info
     ∧ (codec_present fv_acodec info ∨ ¬ duration_null_or_zero info)) ∧
  (_detect_content_type info = "audio"
   ↔ ¬ declared_image info ∧ ¬ url_is_photo info
     ∧ ¬ codec_present fv_vcodec info ∧ codec_present fv_acodec info) ∧
  (_detect_content_type info = "photo"
   ↔ declared_image info ∨ url_is_photo info
     ∨ (¬ codec_present fv_vcodec info ∧ ¬ codec_present fv_acodec info)
     ∨ (codec_present fv_vcodec info ∧ ¬ codec_present fv_acodec info
        ∧ duration_null_or_zero info)).
Proof.
  unfold _detect_content_type.
  pose proof (url_test_spec info) as Hurl.
  pose proof (has_codec_spec fv_vcodec info) as Hv.
  pose proof (has_codec_spec fv_acodec info) as Ha.
  pose proof (duration_test_spec info) as Hd.
  fold (declared_image info).
  destruct (bool_decide_reflect (declared_image info)) as [Himg | Himg].
  { split_and!; split; try discriminate; try tauto. }
  destruct (existsb _ photo_url_patterns).
  { split_and!; split; try discriminate; try tauto. }
  assert (¬ url_is_photo info) as Hnurl by (rewrite <- Hurl; discriminate).
  destruct (has_codec fv_vcodec _), (has_codec fv_acodec _);
    destruct (match md_duration info with None => true | Some d => _ end);
    simpl; split_and!; split; try discriminate;
    intuition (first [ discriminate | congruence | auto ]).
Qed.

(** A descriptor none of whose variants names a codec (each codec absent
    or "none"), in particular one without variants, is a photo whatever
    its tag, URL and duration. *)
Theorem detect_without_codecs (info : MediaDescriptor) :
  (∀ f, f ∈ md_formats info →
        (fv_vcodec f = None ∨ fv_vcodec f = Some "none")
        ∧ (fv_acodec f = None ∨ fv_acodec f = Some "none")) →
  _detect_content_type info = "photo".
Proof.
  intros Hnone.
  assert (has_codec fv_vcodec (md_formats info) = false) as Hv.
  { apply not_true_is_false. rewrite has_codec_spec.
    apply no_codec_not_present. intros f Hin. by apply Hnone. }
  assert (has_codec fv_acodec (md_formats info) = false) as Ha.
  { apply not_true_is_false. rewrite has_codec_spec.
    apply no_codec_not_present. intros f Hin. by apply Hnone. }
  unfold _detect_content_type. rewrite Hv, Ha.
  destruct (bool_decide _); [ done | ]. by destruct (existsb _ _).
Qed.

Lemma detect_without_codecs_witness :
  _detect_content_type
    (mkInfo None None None (Some 30%Q)
       [ mkFormat (Some 720) None (Some "none") None None None ] None None)
  = "photo".
Proof.
  apply detect_without_codecs. intros f Hin.
  apply elem_of_cons in Hin as [-> | Hin]; [ simpl; auto | ].
  by apply elem_of_nil in Hin.
Defined.

(** A variant with a known height of at least 144 and no video codec
    entry is filed under its bucket; when no variant names any codec the
    descriptor is a photo and still lists that quality. *)
Theorem codecless_variant_listed (info : MediaDescriptor)
    (f : FormatVariant) (h : Z) :
  f ∈ md_formats info → fv_vcodec f = None → fv_height f = Some h →
  144 ≤ h →
  (∃ e, e ∈ _get_available_qualities info
        ∧ _height_to_quality h = Some (qe_value e)) ∧
  ((∀ g, g ∈ md_formats info → fv_vcodec g = None ∧ fv_acodec g = None) →
   _detect_content_type info = "photo"
   ∧ _get_available_qualities info ≠ []).
Proof.
  intros Hin Hcodec Hheight Hh.
  assert (∃ e, e ∈ _get_available_qualities info
               ∧ _height_to_quality h = Some (qe_value e)) as Hlisted.
  { destruct (_height_to_quality h) as [b|] eqn:Hb.
    2: { apply height_to_quality_none in Hb. lia. }
    assert (b ∈ qe_value <$> _get_available_qualities info) as Hmem.
    { rewrite available_qualities_values. apply list_elem_of_filter. split.
      - apply bucket_opened. exists f. split; [ done | ].
        exists h. split_and!; [ done | congruence | done ].
      - by eapply height_to_quality_in_order. }
    apply list_elem_of_fmap in Hmem as (e & -> & He). by exists e. }
  split; [ done | ]. intros Hall. split.
  - assert (has_codec fv_vcodec (md_formats info) = false) as Hv.
    { apply not_true_is_false. rewrite has_codec_spec.
      apply no_codec_not_present. intros g Hg. left. by apply Hall. }
    assert (has_codec fv_acodec (md_formats info) = false) as Ha.
    { apply not_true_is_false. rewrite has_codec_spec.
      apply no_codec_not_present. intros g Hg. left. by apply Hall. }
    unfold _detect_content_type. rewrite Hv, Ha.
    destruct (bool_decide _); [ done | ]. by destruct (existsb _ _).
  - destruct Hlisted as (e & He & _). intros Hnil. rewrite Hnil in He.
    by apply elem_of_nil in He.
Qed.

Lemma codecless_variant_listed_witness :
  ∃ e, e ∈ _get_available_qualities
             (mkInfo None None None None
                [ mkFormat (Some 1090) None None None None None ] None None)
       ∧ _height_to_quality 1090 = Some (qe_value e).
Proof.
  apply (codecless_variant_listed
           (mkInfo None None None None
              [ mkFormat (Some 1090) None None None None None ] None None)
           (mkFormat (Some 1090) None None None None None) 1090).
  - apply list_elem_of_here.
  - reflexivity.
  - reflexivity.
  - lia.
Defined.

End ContentTypeClasses.

Section QualityCeilings.

Lemma quality_map_table (q : string) (H : Z) :
  quality_map !! q = Some H ↔ (H, q) ∈ bucket_table.
Proof.
  split; [ | apply quality_map_known ].
  unfold quality_map. intros Hq%elem_of_list_to_map_2.
  repeat (apply elem_of_cons in Hq as [Hq | Hq];
          [ injection Hq as -> ->; unfold bucket_table; in_list | ]).
  by apply elem_of_nil in Hq.
Qed.

(** The table of the option builder and the classifier agree: the height
    the builder binds to a quality is classified as that quality and is
    the least height that is; every bucket the classifier returns is a
    quality the builder knows, with a ceiling not above the height. *)
Theorem quality_map_round_trip :
  (∀ q H, quality_map !! q = Some H →
          _height_to_quality H = Some q
          ∧ ∀ h, _height_to_quality h = Some q → H ≤ h) ∧
  (∀ h q, _height_to_quality h = Some q →
          ∃ H, quality_map !! q = Some H ∧ H ≤ h).
Proof.
  split.
  - intros q H Hq%quality_map_table. split.
    + table_cases Hq; reflexivity.
    + intros h Hh. table_cases Hq; unfold _height_to_quality in Hh;
        split_geb; first [ lia | discriminate ].
  - intros h q (t & Hin & Hle & _)%height_to_quality_highest.
    exists t. split; [ by apply quality_map_table | done ].
Qed.

(** Every quality offered for a descriptor can be requested: a video
    download of it gets the capped selector, never the unconstrained
    one, and the cap is at most the height of a variant of the
    descriptor filed under that quality (it can be lower: a variant of
    height 1090 is offered as 1080p and requested with cap 1080). *)
Theorem offered_quality_is_requestable (info : MediaDescriptor)
    (e : QualityEntry) (format_type download_type : string) :
  e ∈ _get_available_qualities info →
  download_type ≠ "photo" → download_type ≠ "audio" →
  ∃ H f h,
    f ∈ md_formats info ∧ fv_height f = Some h
    ∧ _height_to_quality h = Some (qe_value e)
    ∧ H ≤ h
    ∧ quality_map !! qe_value e = Some H
    ∧ _get_download_options (qe_value e) format_type download_type !! "format"
      = Some (OStr (ceiling_selector H)).
Proof.
  intros (_ & _ & _ & i & f & Hfind & _)%available_qualities_entry
         Hp%String.eqb_neq Ha%String.eqb_neq.
  apply list_find_Some in Hfind as (Hi & Hb & _).
  apply bucket_of_spec in Hb as (h & Hh & _ & Hq).
  pose proof Hq as (H & Hin & Hle & _)%height_to_quality_highest.
  exists H, f, h. split_and!; try done.
  - by eapply list_elem_of_lookup_2.
  - by apply quality_map_table.
  - unfold _get_download_options. rewrite Hp, Ha.
    by rewrite (quality_map_known _ _ Hin).
Qed.

Lemma offered_quality_is_requestable_witness :
  ∃ H f h,
    f ∈ [ mkFormat (Some 1090) (Some "vp9") None None None None ]
    ∧ fv_height f = Some h
    ∧ _height_to_quality h = Some "1080p"
    ∧ H ≤ h
    ∧ quality_map !! "1080p" = Some H
    ∧ _get_download_options "1080p" "mp4" "video" !! "format"
      = Some (OStr (ceiling_selector H)).
Proof.
  apply (offered_quality_is_requestable
           (mkInfo None None None None
              [ mkFormat (Some 1090) (Some "vp9") None None None None ]
              None None)
           (mkQualityEntry "1080p" "Full HD (1080p)" true None) "mp4" "video").
  - apply list_elem_of_here.
  - discriminate.
  - discriminate.
Defined.

End QualityCeilings.

Section FormatFilesizeExact.

Lemma round_half_even_multiple (a b : Z) :
  0 < b → round_half_even (a * b) b = a.
Proof.
  intros Hb. unfold round_half_even.
  rewrite Z.div_mul, Z.mod_mul by lia.
  change (2 * 0) with 0. by rewrite (proj2 (Z.compare_lt_iff 0 b) Hb).
Qed.

Lemma tenths_str_integral (m : Z) :
  tenths_str (10 * m) = pretty m +:+ ".0".
Proof.
  unfold tenths_str.
  rewrite (Z.mul_comm 10 m), Z.div_mul, Z.mod_mul by lia.
  reflexivity.
Qed.

(** A float that is an integer renders as that integer and ".0". *)
Lemma format_1f_integral (v : PyNum) (m : Z) :
  0 ≤ m → Qnum (float_value v) = m * Z.pos (Qden (float_value v)) →
  format_1f v = pretty m +:+ ".0".
Proof.
  intros Hm Hnum. unfold format_1f. rewrite Hnum.
  rewrite (proj2 (Z.ltb_ge _ 0)) by nia.
  rewrite Z.abs_eq by nia.
  rewrite Z.mul_assoc, round_half_even_multiple by lia.
  by rewrite tenths_str_integral.
Qed.

(** Below 1024 the size is rendered as it is, with ".0 B". *)
Theorem format_filesize_bytes (n : Z) :
  0 ≤ n < 1024 → _format_filesize n = pretty n +:+ ".0 B".
Proof.
  intros [H0 Hlt]. unfold _format_filesize. cbn [format_units].
  cbn [py_lt_1024]. rewrite (proj2 (Z.ltb_lt n 1024) Hlt).
  rewrite (format_1f_integral (PyInt n) n H0).
  - by rewrite str_app_assoc.
  - cbn [float_value]. rewrite float_of_int_exact by lia. simpl. lia.
Qed.

Lemma format_filesize_bytes_witness :
  _format_filesize 512 = pretty 512 +:+ ".0 B"
  ∧ pretty 512 +:+ ".0 B" = "512.0 B".
Proof.
  split; [ apply (format_filesize_bytes 512); lia | reflexivity ].
Defined.

(** A whole number of units is rendered as that number: the loop of a
    value [n * 1024^k] stops at unit [k] with [n] and ".0". *)
Lemma format_units_integral (n : Z) (units : list string) (v : PyNum)
    (k : nat) (unit : string) :
  1 ≤ n →
  (units ++ ["TB"])%list !! k = Some unit →
  n < 1024 ∨ k = length units →
  (float_value v == inject_Z (n * 1024 ^ Z.of_nat k))%Q →
  (py_lt_1024 v = true ↔ (float_value v < 1024)%Q) →
  format_units units v = pretty n +:+ ".0 " +:+ unit.
Proof.
  intros Hn. revert v k.
  induction units as [|u units IH]; intros v k Hk Hrange Hv Hcmp.
  - destruct k as [|k]; [ | by destruct k ]. injection Hk as <-.
    cbn [format_units]. rewrite (format_1f_integral v n) by
      (try lia; unfold Qeq in Hv; simpl in Hv; lia).
    by rewrite str_app_assoc.
  - destruct k as [|k].
    + injection Hk as <-. destruct Hrange as [Hlt | Hlen]; [ | done ].
      cbn [format_units].
      rewrite (proj2 Hcmp) by (rewrite Hv; unfold Qlt; simpl; lia).
      rewrite (format_1f_integral v n) by
        (try lia; unfold Qeq in Hv; simpl in Hv; lia).
      by rewrite str_app_assoc.
    + cbn [format_units].
      assert (1024 ≤ n * 1024 ^ Z.of_nat (S k)) as Hbig.
      { rewrite Nat2Z.inj_succ, Z.pow_succ_r by lia.
        pose proof (Z.pow_pos_nonneg 1024 (Z.of_nat k)). nia. }
      destruct (py_lt_1024 v) eqn:Hlt.
      { destruct Hcmp as [Hc _]. specialize (Hc eq_refl).
        rewrite Hv in Hc. unfold Qlt in Hc. simpl in Hc. lia. }
      apply (IH (py_div_1024 v) k).
      * exact Hk.
      * destruct Hrange as [? | Hlen]; [ by left | right ]. simpl in Hlen. lia.
      * rewrite float_value_div, Hv, Nat2Z.inj_succ, Z.pow_succ_r by lia.
        unfold Qeq. simpl. lia.
      * destruct v; apply py_lt_1024_float.
Qed.

(** A size of [n] whole units, [n * 1024^k] with [1 <= n < 1024], is
    rendered as [n], ".0" and the [k]-th unit; at TB the loop ends, so
    [n] may reach 1024 and more there (no larger unit is used). *)
Theorem format_filesize_multiples (n : Z) (k : nat) (unit : string) :
  1 ≤ n → size_units !! k = Some unit →
  n < 1024 ∨ (k = 4%nat ∧ n < 8192) →
  _format_filesize (n * 1024 ^ Z.of_nat k) = pretty n +:+ ".0 " +:+ unit.
Proof.
  intros Hn Hk Hrange. unfold _format_filesize.
  assert (k ≤ 4)%nat as Hk4.
  { apply lookup_lt_Some in Hk. simpl in Hk. lia. }
  assert (0 ≤ n * 1024 ^ Z.of_nat k < 2 ^ 53) as Hsize.
  { assert (k = 0 ∨ k = 1 ∨ k = 2 ∨ k = 3 ∨ k = 4)%nat
      as [-> | [-> | [-> | [-> | ->]]]] by lia;
      simpl; destruct Hrange as [? | [? ?]]; try discriminate; lia. }
  apply (format_units_integral n ["B"; "KB"; "MB"; "GB"] _ k).
  - done.
  - exact Hk.
  - destruct Hrange as [? | [-> ?]]; [ by left | by right ].
  - cbn [float_value]. by rewrite float_of_int_exact by lia.
  - cbn [float_value py_lt_1024]. rewrite float_of_int_exact by lia.
    rewrite Z.ltb_lt. unfold Qlt. simpl. lia.
Qed.

Lemma format_filesize_multiples_witness :
  _format_filesize (2048 * 1024 ^ Z.of_nat 4) = pretty 2048 +:+ ".0 " +:+ "TB"
  ∧ pretty 2048 +:+ ".0 " +:+ "TB" = "2048.0 TB".
Proof.
  split; [ | reflexivity ].
  apply (format_filesize_multiples 2048 4 "TB").
  - lia.
  - reflexivity.
  - right. split; [ reflexivity | lia ].
Defined.

End FormatFilesizeExact.

Section AudioFallback.

(** For an audio download whose predicted name has an extension, and a
    [format_type] without dot or slash, the expected path is the
    predicted one with the extension replaced, and the fallback search
    probes the base path of the predicted name. *)
Theorem audio_fallback_base (dir stem ext format_type : string) :
  file_name_parts dir stem ext →
  rfind "." format_type = -1 → rfind "/" format_type = -1 →
  expected_path "audio" format_type (dir +:+ stem +:+ "." +:+ ext)
  = dir +:+ stem +:+ "." +:+ format_type
  ∧ (splitext (expected_path "audio" format_type
                 (dir +:+ stem +:+ "." +:+ ext))).1
    = dir +:+ stem
  ∧ (splitext (dir +:+ stem +:+ "." +:+ ext)).1 = dir +:+ stem.
Proof.
  intros (Hdir & Hstem & Hnondot & Hext & Hext') Hfmt Hfmt'.
  assert (expected_path "audio" format_type (dir +:+ stem +:+ "." +:+ ext)
          = dir +:+ stem +:+ "." +:+ format_type) as Hpath.
  { unfold expected_path. rewrite String.eqb_refl, splitext_stem_ext by done.
    simpl. by rewrite str_app_assoc. }
  rewrite Hpath, !splitext_stem_ext by done. done.
Qed.

Lemma audio_fallback_base_witness :
  expected_path "audio" "mp3" ("downloads/" +:+ "song" +:+ "." +:+ "webm")
  = "downloads/" +:+ "song" +:+ "." +:+ "mp3"
  ∧ (splitext (expected_path "audio" "mp3"
                 ("downloads/" +:+ "song" +:+ "." +:+ "webm"))).1
    = "downloads/" +:+ "song"
  ∧ (splitext ("downloads/" +:+ "song" +:+ "." +:+ "webm")).1
    = "downloads/" +:+ "song".
Proof.
  apply (audio_fallback_base "downloads/" "song" "webm" "mp3");
    [ | reflexivity | reflexivity ].
  split_and!; try reflexivity. right. by exists "downloads".
Defined.

End AudioFallback.

Section DownloadInvariantRuns.

Lemma download_success_names_file_witness :
  ∃ info filename,
    ydl_writing clip_info "downloads/clip.mp4"
      {[ "downloads/clip.mp4" := 10 ]}
      (download_opts "downloads" "highest" "mp4" "video")
      "https://example.com/v" ∅
    = (Extracted info filename, {[ "downloads/clip.mp4" := 10 ]} ∪ ∅)
    ∧ ({[ "downloads/clip.mp4" := 10 ]} ∪ ∅ : gmap string Z)
        !! dr_filepath clip_mp4_result
      = Some (dr_filesize clip_mp4_result)
    ∧ dr_filename clip_mp4_result = basename (dr_filepath clip_mp4_result)
    ∧ dr_filesize_readable clip_mp4_result
      = _format_filesize (dr_filesize clip_mp4_result)
    ∧ dr_title clip_mp4_result = md_title info
    ∧ dr_platform clip_mp4_result = md_extractor_key info
    ∧ ((dr_filepath clip_mp4_result = expected_path "video" "mp4" filename
        ∧ dr_filesize clip_mp4_result ≠ 0)
       ∨ (({[ "downloads/clip.mp4" := 10 ]} ∪ ∅ : gmap string Z)
            !! expected_path "video" "mp4" filename = None
          ∧ ∃ ext, ext ∈ fallback_extensions
                   ∧ dr_filepath clip_mp4_result
                     = (splitext (expected_path "video" "mp4" filename)).1
                       +:+ "." +:+ ext)).
Proof.
  apply (download_success_names_file "downloads"
           (ydl_writing clip_info "downloads/clip.mp4"
              {[ "downloads/clip.mp4" := 10 ]})
           ∅ "https://example.com/v" "highest" "mp4" "video"
           clip_mp4_result).
  vm_compute. reflexivity.
Defined.

Lemma download_failure_causes_witness :
  (∃ msg,
     ydl_raising "Video unavailable"
       (download_opts "downloads" "highest" "mp4" "video")
       "https://example.com/v" ∅
     = (Raised msg, ∅)
     ∧ quality_unavailable_msg
       = if str_in "unavailable" (lower msg)
         then quality_unavailable_msg else msg) ∨
  (∃ info filename,
     ydl_raising "Video unavailable"
       (download_opts "downloads" "highest" "mp4" "video")
       "https://example.com/v" ∅
     = (Extracted info filename, ∅)
     ∧ (((∅ : gmap string Z) !! expected_path "video" "mp4" filename = Some 0
         ∧ quality_unavailable_msg = empty_file_msg)
        ∨ ((∅ : gmap string Z) !! expected_path "video" "mp4" filename = None
           ∧ quality_unavailable_msg = not_found_msg
           ∧ ∀ ext, ext ∈ fallback_extensions →
                    (∅ : gmap string Z)
                      !! ((splitext (expected_path "video" "mp4" filename)).1
                          +:+ "." +:+ ext)
                    = None))).
Proof.
  apply (download_failure_causes "downloads"
           (ydl_raising "Video unavailable")
           ∅ "https://example.com/v" "highest" "mp4" "video").
  reflexivity.
Defined.

End DownloadInvariantRuns.
